(** * Shallow embedding of [baseline/vcp/model/layers.py]

    The module defines the layer-name registry ([_LAYER_UIDS],
    [get_layer_uid]), the base class [Layer] and the three concrete layers
    [Dense], [GCN] and [MLPDecoder].  Python objects become records, the
    process-wide dictionary becomes an explicit [gmap] threaded through the
    constructors, raised exceptions become the [Raise] branch of a result
    type, and the TensorFlow primitives the layers call are an interface
    ([TF]) with one executable instance over row-major matrices. *)

From stdpp Require Import base option list gmap strings pretty.
From Stdlib Require Import ZArith QArith Lia.

Local Open Scope string_scope.
Local Open Scope list_scope.
Local Open Scope Z_scope.

(** ** Exceptions and results *)

Inductive exn :=
  | AssertionError (msg : string)
  | TypeError (msg : string)
  | IndexError (msg : string)
  | KeyError (msg : string)
  | ValueError (msg : string)
  | InvalidArgumentError (msg : string).

Inductive res (A : Type) :=
  | Ret (a : A)
  | Raise (e : exn).
Arguments Ret {A} a.
Arguments Raise {A} e.

#[export] Instance res_ret : MRet res := λ A a, Ret a.
#[export] Instance res_bind : MBind res := λ A B k m,
  match m with
  | Ret a => k a
  | Raise e => Raise e
  end.
#[export] Instance res_fmap : FMap res := λ A B f m,
  match m with
  | Ret a => Ret (f a)
  | Raise e => Raise e
  end.

Definition fails {A} (m : res A) : Prop := ∃ e, m = Raise e.

(** ** Python values reaching the base options *)

Inductive pyval :=
  | PNone
  | PBool (b : bool)
  | PInt (n : Z)
  | PStr (s : string).

(** Truth value of an object, as [if not name] and [if self.logging] test it. *)
Definition truthy (v : pyval) : bool :=
  match v with
  | PNone => false
  | PBool b => b
  | PInt n => negb (Z.eqb n 0)
  | PStr s => negb (String.eqb s "")
  end.

(** [v + suffix] for a [str] suffix: defined on strings only. *)
Definition str_add (v : pyval) (suffix : string) : res string :=
  match v with
  | PStr s => Ret (s +:+ suffix)
  | _ => Raise (TypeError "unsupported operand type(s) for +")
  end.

(** [str.lower()] on the ASCII range. *)
Definition lower_ascii (c : Ascii.ascii) : Ascii.ascii :=
  let n := Ascii.nat_of_ascii c in
  if (Nat.leb 65 n && Nat.leb n 90)%bool then Ascii.ascii_of_nat (n + 32)%nat else c.

Fixpoint lower (s : string) : string :=
  match s with
  | EmptyString => EmptyString
  | String c rest => String (lower_ascii c) (lower rest)
  end.

(** [**kwargs]: keyword arguments in call order. *)
Abbreviation kwargs := (list (string * pyval)).

(** [kwargs.get(key)], [None] when the key is absent. *)
Fixpoint kwargs_get (key : string) (kw : kwargs) : option pyval :=
  match kw with
  | [] => None
  | (k, v) :: rest => if String.eqb k key then Some v else kwargs_get key rest
  end.

(** ** The process-wide state: the registry and the emitted summaries *)

Record world := World {
  layer_uids : gmap string Z;   (* _LAYER_UIDS *)
  summaries : list string       (* tags passed to tf.summary.histogram *)
}.

Definition empty_world : world := World ∅ [].

(** A computation that reads and writes the process-wide state and may
    raise; what it wrote before raising stays written. *)
Definition M (A : Type) : Type := world → res A * world.

#[export] Instance M_ret : MRet M := λ A a w, (Ret a, w).
#[export] Instance M_bind : MBind M := λ A B k m w,
  match m w with
  | (Ret a, w') => k a w'
  | (Raise e, w') => (Raise e, w')
  end.

Definition lift {A} (r : res A) : M A := λ w, (r, w).

(** ** The layer-name registry *)

(** [get_layer_uid(layer_name='')] on the dictionary alone: the returned
    integer and the dictionary after the call. *)
Definition get_layer_uid (layer_name : string) (s : gmap string Z)
  : Z * gmap string Z :=
  match s !! layer_name with
  | None => (1, <[layer_name := 1]> s)
  | Some n => (n + 1, <[layer_name := n + 1]> s)
  end.

Definition get_layer_uid_M (layer_name : string) : M Z := λ w,
  let '(n, s) := get_layer_uid layer_name (layer_uids w) in
  (Ret n, World s (summaries w)).

(** A caller that invokes [get_layer_uid] once per name of [names], in
    order, recording each name with the integer it received. *)
Fixpoint calls (names : list string) (s : gmap string Z)
  : list (string * Z) * gmap string Z :=
  match names with
  | [] => ([], s)
  | a :: rest =>
      let '(n, s1) := get_layer_uid a s in
      let '(out, s2) := calls rest s1 in
      ((a, n) :: out, s2)
  end.

(** The integers handed out for [name] along a run, in call order. *)
Definition uids_of (name : string) (out : list (string * Z)) : list Z :=
  snd <$> filter (λ p, p.1 = name) out.

(** How often [name] is asked for in [names]. *)
Definition asked (name : string) (names : list string) : nat :=
  length (filter (λ a, a = name) names).

(** The integers [k+1, k+2, …, k+n]. *)
Definition upto_from (k : Z) (n : nat) : list Z :=
  (λ i : nat, k + Z.of_nat i + 1) <$> seq 0 n.

(** ** The tensor engine the layers are written against

    [tensor] and [sparse_tensor] are TensorFlow's dense and sparse values.
    Every primitive that can reject its operands returns a [res].  The last
    three fields are the functions [from .initializations import *] brings
    in; their module is not part of the sources, so they are taken as
    parameters: each receives the enclosing variable scope, the dimensions
    and the variable name. *)

Class TF := {
  tensor : Type;
  sparse_tensor : Type;
  tf_nn_dropout : tensor → Q → res tensor;
  tf_matmul : tensor → tensor → res tensor;
  tf_sparse_tensor_dense_matmul : sparse_tensor → tensor → res tensor;
  tf_add : tensor → tensor → res tensor;
  tf_subtract : tensor → tensor → res tensor;
  tf_abs : tensor → tensor;
  tf_add_n : list tensor → res tensor;
  tf_nn_bias_add : tensor → tensor → res tensor;
  tf_gather : tensor → list Z → res tensor;
  tf_squeeze : tensor → tensor;
  tf_nn_relu : tensor → tensor;
  tf_layers_batch_normalization : tensor → bool → res tensor;
  weight_variable_random_uniform : string → Z → Z → string → res tensor;
  weight_variable_he_init : string → Z → Z → string → res tensor;
  bias_variable_zero : string → list Z → string → res tensor
}.

(** [with tf.name_scope(name):] entering the scope either succeeds or
    raises (a name that is no string, a string the engine does not accept);
    which names are accepted is the engine's business. *)
Class NameScope := {
  tf_name_scope : pyval → res unit
}.

(** A Python value handed to [dot]: a dense or a sparse tensor. *)
Inductive operand `{TF} :=
  | Dense_op (x : tensor)
  | Sparse_op (x : sparse_tensor).

(** [dot(x, y, sparse=False)]: wrapper for tf.matmul (sparse vs dense). *)
Definition dot `{TF} (x : operand) (y : tensor) (sparse : bool) : res tensor :=
  if sparse then
    match x with
    | Sparse_op sx => tf_sparse_tensor_dense_matmul sx y
    | Dense_op _ => Raise (TypeError "expected a SparseTensor")
    end
  else
    match x with
    | Dense_op dx => tf_matmul dx y
    | Sparse_op _ => Raise (TypeError "expected a Tensor")
    end.

(** [assert cond] with no message. *)
Definition assert (cond : bool) : res unit :=
  if cond then Ret () else Raise (AssertionError "").

(** [range(n)] *)
Definition range (n : Z) : list Z := Z.of_nat <$> seq 0 (Z.to_nat n).

(** [l[i]]: a negative index counts from the end, and an index outside
    the list raises. *)
Definition index {A} (l : list A) (i : Z) : res A :=
  let j := if bool_decide (0 ≤ i) then i else Z.of_nat (length l) + i in
  if bool_decide (0 ≤ j) then
    match l !! Z.to_nat j with
    | Some a => Ret a
    | None => Raise (IndexError "list index out of range")
    end
  else Raise (IndexError "list index out of range").

(** [self.vars[key]] for a variable that is only created under a flag. *)
Definition var_lookup {A} (key : string) (v : option A) : res A :=
  match v with
  | Some a => Ret a
  | None => Raise (KeyError key)
  end.

(** ** The base class [Layer] *)

Definition allowed_kwargs : list string := ["name"; "logging"].

(** [for kwarg in kwargs.keys(): assert kwarg in allowed_kwargs, ...] *)
Fixpoint check_kwargs (keys : list string) : res unit :=
  match keys with
  | [] => Ret ()
  | kwarg :: rest =>
      if bool_decide (kwarg ∈ allowed_kwargs) then check_kwargs rest
      else Raise (AssertionError ("Invalid keyword argument: " +:+ kwarg))
  end.

(** [tf.summary.histogram(tag, _)]: the tag joins the emitted summaries. *)
Definition tf_summary_histogram (tag : string) : M unit := λ w,
  (Ret (), World (layer_uids w) (summaries w ++ [tag])).

Module Layer.

(** The attributes [Layer.__init__] sets.  [self.vars] starts empty and is
    filled by the subclasses, whose records carry its entries as fields. *)
Record t := {
  name : pyval;
  logging : pyval;
  sparse_inputs : bool
}.

(** [Layer.__init__(self, **kwargs)]; [cls] is [self.__class__.__name__]. *)
Definition __init__ (cls : string) (kw : kwargs) : M t :=
  _ ← lift (check_kwargs kw.*1);
  let name := default PNone (kwargs_get "name" kw) in
  name ← (if negb (truthy name) then
            let layer := lower cls in
            uid ← get_layer_uid_M layer;
            mret (PStr (layer +:+ "_" +:+ pretty uid))
          else mret name);
  let logging := default (PBool false) (kwargs_get "logging" kw) in
  mret {| name := name; logging := logging; sparse_inputs := false |}.

Definition _call `{TF} (self : t) (inputs : tensor) : res tensor := Ret inputs.

(** [_log_vars]: one histogram per key of [self.vars], in insertion order. *)
Fixpoint _log_vars (self : t) (vars : list string) : M unit :=
  match vars with
  | [] => mret ()
  | var :: rest =>
      prefix ← lift (str_add (name self) "/vars/");
      _ ← tf_summary_histogram (prefix +:+ var);
      _log_vars self rest
  end.

(** [Layer.__call__(self, input)].  [_call] is [self._call], looked up on
    the object: a subclass that does not override [__call__] runs this
    wrapper around its own [_call]. *)
Definition __call__ `{TF} `{NameScope} (self : t)
    (_call : tensor → res tensor) (input : tensor) : M tensor :=
  _ ← lift (tf_name_scope (name self));
  _ ← (if truthy (logging self) && negb (sparse_inputs self) then
         tag ← lift (str_add (name self) "/input");
         tf_summary_histogram tag
       else mret ());
  outputs ← lift (_call input);
  _ ← (if truthy (logging self) then
         tag ← lift (str_add (name self) "/outputs");
         tf_summary_histogram tag
       else mret ());
  mret outputs.

End Layer.

(** The activations the constructors default to: [tf.nn.relu] and
    [lambda x: x]. *)
Definition relu `{TF} (x : tensor) : res tensor := Ret (tf_nn_relu x).
Definition identity `{TF} (x : tensor) : res tensor := Ret x.

(** ** [class Dense(Layer)] *)

Module Dense.

Record t `{TF} := {
  base : Layer.t;
  weights : tensor;               (* self.vars['weights'] *)
  node_bias : option tensor;      (* self.vars['node_bias'], when created *)
  bias : bool;
  batch_norm : bool;
  is_train : bool;
  dropout : Q;
  act : tensor → res tensor
}.

(** The keys of [self.vars], in insertion order. *)
Definition vars `{TF} (self : t) : list string :=
  "weights" :: match node_bias self with Some _ => ["node_bias"] | None => [] end.

Definition __init__ `{TF} (input_dim output_dim : Z) (is_train : bool)
    (dropout : Q) (act : tensor → res tensor) (bias batch_norm : bool)
    (kw : kwargs) : M t :=
  base ← Layer.__init__ "Dense" kw;
  scope ← lift (str_add (Layer.name base) "_vars");
  weights ← lift (weight_variable_random_uniform scope input_dim output_dim "weights");
  node_bias ← (if bias then
                 b ← lift (bias_variable_zero scope [output_dim] "bias_n");
                 mret (Some b)
               else mret None);
  let self := {| base := base; weights := weights; node_bias := node_bias;
                 bias := bias; batch_norm := batch_norm; is_train := is_train;
                 dropout := dropout; act := act |} in
  _ ← (if truthy (Layer.logging base) then Layer._log_vars base (vars self)
       else mret ());
  mret self.

Definition _call `{TF} (self : t) (input : tensor) : res tensor :=
  let x_n := input in
  x_n ← tf_nn_dropout x_n (1 - dropout self)%Q;
  x_n ← tf_matmul x_n (weights self);
  x_n ← (if bias self && negb (batch_norm self) then
           b ← var_lookup "node_bias" (node_bias self);
           tf_add x_n b
         else Ret x_n);
  n_outputs ← act self x_n;
  n_outputs ← (if batch_norm self then
                 tf_layers_batch_normalization n_outputs (is_train self)
               else Ret n_outputs);
  Ret n_outputs.

Definition __call__ `{TF} `{NameScope} (self : t) (input : tensor) : M tensor :=
  _ ← lift (tf_name_scope (Layer.name (base self)));
  _ ← (if truthy (Layer.logging (base self)) then
         tag ← lift (str_add (Layer.name (base self)) "/input");
         tf_summary_histogram tag
       else mret ());
  outputs_n ← lift (_call self input);
  _ ← (if truthy (Layer.logging (base self)) then
         tag ← lift (str_add (Layer.name (base self)) "/outputs_n");
         tf_summary_histogram tag
       else mret ());
  mret outputs_n.

End Dense.

(** ** [class GCN(Layer)] *)

Module GCN.

Record t `{TF} := {
  base : Layer.t;
  weights : list tensor;          (* self.vars['weights'], self.weights *)
  bias_n : option tensor;         (* self.vars['bias_n'], when created *)
  dropout : Q;
  batch_norm : bool;
  is_train : bool;
  bias : bool;
  support : list sparse_tensor;
  act : tensor → res tensor
}.

Definition vars `{TF} (self : t) : list string :=
  "weights" :: match bias_n self with Some _ => ["bias_n"] | None => [] end.

Definition __init__ `{TF} (input_dim output_dim : Z)
    (support : list sparse_tensor) (num_support : Z) (is_train : bool)
    (dropout : Q) (act : tensor → res tensor) (bias batch_norm : bool)
    (init : string) (kw : kwargs) : M t :=
  base ← Layer.__init__ "GCN" kw;
  _ ← lift (assert (bool_decide (init ∈ ["def"; "he"])));
  scope ← lift (str_add (Layer.name base) "_vars");
  let init_func :=
    if String.eqb init "def" then weight_variable_random_uniform
    else weight_variable_he_init in
  weights ← lift (mapM (λ i, init_func scope input_dim output_dim
                               ("weights_n_" +:+ pretty i))
                       (range num_support));
  bias_n ← (if bias then
              b ← lift (bias_variable_zero scope [output_dim] "bias_n");
              mret (Some b)
            else mret None);
  let self := {| base := base; weights := weights; bias_n := bias_n;
                 dropout := dropout; batch_norm := batch_norm;
                 is_train := is_train; bias := bias; support := support;
                 act := act |} in
  _ ← (if truthy (Layer.logging base) then Layer._log_vars base (vars self)
       else mret ());
  mret self.

(** The body of [for i in range(len(self.support))], run over the indices
    [idx] that remain, with [supports_n] as built so far. *)
Fixpoint loop `{TF} (self : t) (x_n : tensor) (idx : list Z)
    (supports_n : list tensor) : res (list tensor) :=
  match idx with
  | [] => Ret supports_n
  | i :: rest =>
      wn ← index (weights self) i;
      tmp_n ← dot (Dense_op x_n) wn (Layer.sparse_inputs (base self));
      support ← index (support self) i;
      h ← tf_sparse_tensor_dense_matmul support tmp_n;
      loop self x_n rest (supports_n ++ [h])
  end.

Definition _call `{TF} (self : t) (input : tensor) : res tensor :=
  x_n ← tf_nn_dropout input (1 - dropout self)%Q;
  supports_n ← loop self x_n (range (Z.of_nat (length (support self)))) [];
  z_n ← tf_add_n supports_n;
  z_n ← (if bias self then
           b ← var_lookup "bias_n" (bias_n self);
           tf_nn_bias_add z_n b
         else Ret z_n);
  n_outputs ← act self z_n;
  n_outputs ← (if batch_norm self then
                 tf_layers_batch_normalization n_outputs (is_train self)
               else Ret n_outputs);
  Ret n_outputs.

(** The same layer with another [self.support], another [self.weights]. *)
Definition with_support `{TF} (s : list sparse_tensor) (self : t) : t :=
  {| base := base self; weights := weights self; bias_n := bias_n self;
     dropout := dropout self; batch_norm := batch_norm self;
     is_train := is_train self; bias := bias self; support := s;
     act := act self |}.

Definition with_weights `{TF} (ws : list tensor) (self : t) : t :=
  {| base := base self; weights := ws; bias_n := bias_n self;
     dropout := dropout self; batch_norm := batch_norm self;
     is_train := is_train self; bias := bias self; support := support self;
     act := act self |}.

Definition __call__ `{TF} `{NameScope} (self : t) (input : tensor) : M tensor :=
  _ ← lift (tf_name_scope (Layer.name (base self)));
  _ ← (if truthy (Layer.logging (base self))
          && negb (Layer.sparse_inputs (base self)) then
         tag ← lift (str_add (Layer.name (base self)) "/input");
         tf_summary_histogram tag
       else mret ());
  outputs_n ← lift (_call self input);
  _ ← (if truthy (Layer.logging (base self)) then
         tag ← lift (str_add (Layer.name (base self)) "/outputs_n");
         tf_summary_histogram tag
       else mret ());
  mret outputs_n.

End GCN.

(** ** [class MLPDecoder(Layer)] *)

Module MLPDecoder.

Record t `{TF} := {
  base : Layer.t;
  weights : tensor;               (* self.vars['weights'] *)
  bias : option tensor;           (* self.vars['bias'], when created *)
  r_indices : list Z;
  c_indices : list Z;
  dropout : Q;
  act : tensor → res tensor;
  n_out : Z;
  use_bias : bool
}.

Definition vars `{TF} (self : t) : list string :=
  "weights" :: match bias self with Some _ => ["bias"] | None => [] end.

Definition __init__ `{TF} (num_classes : Z) (r_indices c_indices : list Z)
    (input_dim : Z) (dropout : Q) (act : tensor → res tensor) (n_out : Z)
    (use_bias : bool) (kw : kwargs) : M t :=
  base ← Layer.__init__ "MLPDecoder" kw;
  scope ← lift (str_add (Layer.name base) "_vars");
  weights ← lift (weight_variable_random_uniform scope input_dim n_out "weights");
  bias ← (if use_bias then
            b ← lift (bias_variable_zero scope [n_out] "bias");
            mret (Some b)
          else mret None);
  let self := {| base := base; weights := weights; bias := bias;
                 r_indices := r_indices; c_indices := c_indices;
                 dropout := dropout; act := act; n_out := n_out;
                 use_bias := use_bias |} in
  _ ← (if truthy (Layer.logging base) then Layer._log_vars base (vars self)
       else mret ());
  mret self.

(** Lines 223-234 of [_call]: the product of the absolute differences
    with the weights, with the bias when there is one, before any squeeze. *)
Definition outputs `{TF} (self : t) (inputs : tensor) : res tensor :=
  node_inputs ← tf_nn_dropout inputs (1 - dropout self)%Q;
  row_inputs ← tf_gather node_inputs (r_indices self);
  col_inputs ← tf_gather node_inputs (c_indices self);
  d ← tf_subtract row_inputs col_inputs;
  let diff := tf_abs d in
  outputs ← tf_matmul diff (weights self);
  outputs ← (if use_bias self then
               b ← var_lookup "bias" (bias self);
               tf_add outputs b
             else Ret outputs);
  Ret outputs.

Definition _call `{TF} (self : t) (inputs : tensor) : res tensor :=
  outputs ← outputs self inputs;
  let outputs := if Z.eqb (n_out self) 1 then tf_squeeze outputs else outputs in
  outputs ← act self outputs;
  Ret outputs.

(** [MLPDecoder] inherits [Layer.__call__]. *)
Definition __call__ `{TF} `{NameScope} (self : t) (inputs : tensor) : M tensor :=
  Layer.__call__ (base self) (_call self) inputs.

End MLPDecoder.

(** ** Constructing any of the four classes *)

Inductive layer_obj `{TF} :=
  | Layer_obj (l : Layer.t)
  | Dense_obj (l : Dense.t)
  | GCN_obj (l : GCN.t)
  | MLPDecoder_obj (l : MLPDecoder.t).

(** A constructor call: the class, its own arguments, and [**kwargs]. *)
Inductive ctor `{TF} :=
  | New_Layer
  | New_Dense (input_dim output_dim : Z) (is_train : bool) (dropout : Q)
      (act : tensor → res tensor) (bias batch_norm : bool)
  | New_GCN (input_dim output_dim : Z) (support : list sparse_tensor)
      (num_support : Z) (is_train : bool) (dropout : Q)
      (act : tensor → res tensor) (bias batch_norm : bool) (init : string)
  | New_MLPDecoder (num_classes : Z) (r_indices c_indices : list Z)
      (input_dim : Z) (dropout : Q) (act : tensor → res tensor) (n_out : Z)
      (use_bias : bool).

Definition construct `{TF} (c : ctor) (kw : kwargs) : M layer_obj :=
  match c with
  | New_Layer =>
      l ← Layer.__init__ "Layer" kw; mret (Layer_obj l)
  | New_Dense input_dim output_dim is_train dropout act bias batch_norm =>
      l ← Dense.__init__ input_dim output_dim is_train dropout act bias
            batch_norm kw;
      mret (Dense_obj l)
  | New_GCN input_dim output_dim support num_support is_train dropout act
      bias batch_norm init =>
      l ← GCN.__init__ input_dim output_dim support num_support is_train
            dropout act bias batch_norm init kw;
      mret (GCN_obj l)
  | New_MLPDecoder num_classes r_indices c_indices input_dim dropout act
      n_out use_bias =>
      l ← MLPDecoder.__init__ num_classes r_indices c_indices input_dim
            dropout act n_out use_bias kw;
      mret (MLPDecoder_obj l)
  end.

(** [type(self).__name__] *)
Definition class_name `{TF} (c : ctor) : string :=
  match c with
  | New_Layer => "Layer"
  | New_Dense _ _ _ _ _ _ _ => "Dense"
  | New_GCN _ _ _ _ _ _ _ _ _ _ => "GCN"
  | New_MLPDecoder _ _ _ _ _ _ _ _ => "MLPDecoder"
  end.

(** [self.name] of a constructed object. *)
Definition obj_name `{TF} (o : layer_obj) : pyval :=
  match o with
  | Layer_obj l => Layer.name l
  | Dense_obj l => Layer.name (Dense.base l)
  | GCN_obj l => Layer.name (GCN.base l)
  | MLPDecoder_obj l => Layer.name (MLPDecoder.base l)
  end.

(** The attributes [Layer.__init__] has set on a constructed object, and
    the keys of its [self.vars]. *)
Definition obj_base `{TF} (o : layer_obj) : Layer.t :=
  match o with
  | Layer_obj l => l
  | Dense_obj l => Dense.base l
  | GCN_obj l => GCN.base l
  | MLPDecoder_obj l => MLPDecoder.base l
  end.

Definition obj_vars `{TF} (o : layer_obj) : list string :=
  match o with
  | Layer_obj _ => []
  | Dense_obj l => Dense.vars l
  | GCN_obj l => GCN.vars l
  | MLPDecoder_obj l => MLPDecoder.vars l
  end.

(** [obj(input)]: the wrapper the object's class provides. *)
Definition obj_call `{TF} `{NameScope} (o : layer_obj) (input : tensor)
  : M tensor :=
  match o with
  | Layer_obj l => Layer.__call__ l (Layer._call l) input
  | Dense_obj l => Dense.__call__ l input
  | GCN_obj l => GCN.__call__ l input
  | MLPDecoder_obj l => MLPDecoder.__call__ l input
  end.

(** [self._call(input)], the core computation of the object's class. *)
Definition obj_core `{TF} (o : layer_obj) (input : tensor) : res tensor :=
  match o with
  | Layer_obj l => Layer._call l input
  | Dense_obj l => Dense._call l input
  | GCN_obj l => GCN._call l input
  | MLPDecoder_obj l => MLPDecoder._call l input
  end.

(** The name the wrapper logs the output under: [Dense] and [GCN] say
    [outputs_n], the inherited wrapper says [outputs]. *)
Definition obj_output_tag `{TF} (o : layer_obj) : string :=
  match o with
  | Layer_obj _ | MLPDecoder_obj _ => "/outputs"
  | Dense_obj _ | GCN_obj _ => "/outputs_n"
  end.

(** Whether the wrapper looks at [sparse_inputs] before it logs the input:
    [Dense.__call__] does not. *)
Definition obj_checks_sparse `{TF} (o : layer_obj) : bool :=
  match o with
  | Dense_obj _ => false
  | _ => true
  end.

(** ** An executable engine: tensors of rank at most two

    The layers multiply their input by rank-two weights, and [tf.matmul]
    wants both operands of the same rank, so every tensor a layer sees is a
    matrix, a vector (a bias, a squeezed result) or a scalar.  The entries
    range over any type with the arithmetic the primitives use. *)

Class Scalar (R : Type) := {
  szero : R;
  sone : R;
  sadd : R → R → R;
  ssub : R → R → R;
  smul : R → R → R;
  sabs : R → R;
  smax : R → R → R
}.

#[export] Instance Z_scalar : Scalar Z := {|
  szero := 0; sone := 1; sadd := Z.add; ssub := Z.sub; smul := Z.mul;
  sabs := Z.abs; smax := Z.max
|}.

Inductive dtensor (R : Type) :=
  | Scalar_t (x : R)
  | Vector (v : list R)
  | Matrix (ncols : nat) (rows : list (list R)).
Arguments Scalar_t {R} x.
Arguments Vector {R} v.
Arguments Matrix {R} ncols rows.

(** A [tf.SparseTensor] of rank two: the stored entries (row, column,
    value) in storage order, and [dense_shape]. *)
Record sparse (R : Type) := Sparse {
  entries : list (nat * nat * R);
  dense_shape : nat * nat
}.
Arguments Sparse {R} entries dense_shape.
Arguments entries {R} s.
Arguments dense_shape {R} s.

Definition shape {R} (t : dtensor R) : list nat :=
  match t with
  | Scalar_t _ => []
  | Vector v => [length v]
  | Matrix c rows => [length rows; c]
  end.

Definition rank {R} (t : dtensor R) : nat := length (shape t).

(** Every row of a matrix has the declared number of columns. *)
Definition wf {R} (t : dtensor R) : Prop :=
  match t with
  | Matrix c rows => Forall (λ r, length r = c) rows
  | _ => True
  end.

(** The entries in row-major order. *)
Definition flatten {R} (t : dtensor R) : list R :=
  match t with
  | Scalar_t x => [x]
  | Vector v => v
  | Matrix _ rows => concat rows
  end.

Definition map_tensor {R} (f : R → R) (t : dtensor R) : dtensor R :=
  match t with
  | Scalar_t x => Scalar_t (f x)
  | Vector v => Vector (fmap (M:=list) f v)
  | Matrix c rows => Matrix c (fmap (M:=list) (fmap (M:=list) f) rows)
  end.

(** What the engine does not fix: the dropout noise applied when
    [keep_prob < 1], batch normalization (it owns moving statistics), and
    the three initializers. *)
Record params (R : Type) := Params {
  dropout_noise : Q → dtensor R → dtensor R;
  batch_normalization : dtensor R → bool → res (dtensor R);
  init_random_uniform : string → Z → Z → string → res (dtensor R);
  init_he : string → Z → Z → string → res (dtensor R);
  init_zero : string → list Z → string → res (dtensor R)
}.
Arguments Params {R} _ _ _ _ _.
Arguments dropout_noise {R} p _ _.
Arguments batch_normalization {R} p _ _.
Arguments init_random_uniform {R} p _ _ _ _.
Arguments init_he {R} p _ _ _ _.
Arguments init_zero {R} p _ _ _.

Section Engine.
Context {R : Type} `{Scalar R}.
Variable P : params R.

(** [tf.nn.dropout(x, keep_prob)]: rejects a probability outside (0, 1],
    returns [x] itself when [keep_prob] is 1. *)
Definition nn_dropout (x : dtensor R) (keep_prob : Q) : res (dtensor R) :=
  if (negb (Qle_bool keep_prob 0) && Qle_bool keep_prob 1)%bool then
    if Qeq_bool keep_prob 1 then Ret x
    else Ret (dropout_noise P keep_prob x)
  else Raise (ValueError "keep_prob must be a float in the range (0, 1]").

Definition dotp (xs ys : list R) : R :=
  foldr (λ p acc, sadd (smul p.1 p.2) acc) szero (zip xs ys).

Definition column (j : nat) (rows : list (list R)) : list R :=
  (λ r, default szero (r !! j)) <$> rows.

(** One row of a product: the row [xr] against each of the [k] columns. *)
Definition mm_row (k : nat) (wrows : list (list R)) (xr : list R) : list R :=
  (λ j, dotp xr (column j wrows)) <$> seq 0 k.

(** [tf.matmul(a, b)] *)
Definition matmul (a b : dtensor R) : res (dtensor R) :=
  match a, b with
  | Matrix ca ra, Matrix cb rb =>
      if decide (ca = length rb) then Ret (Matrix cb (mm_row cb rb <$> ra))
      else Raise (InvalidArgumentError "Matrix size-incompatible")
  | _, _ => Raise (InvalidArgumentError "Shape must be rank 2")
  end.

(** [out[m, :] += v * b[k, :]] for the stored entries in turn; an entry
    outside the operands is rejected. *)
Fixpoint accumulate (es : list (nat * nat * R)) (b out : list (list R))
  : res (list (list R)) :=
  match es with
  | [] => Ret out
  | (m, k, v) :: rest =>
      match b !! k with
      | None => Raise (InvalidArgumentError "k out of bounds")
      | Some bk =>
          match out !! m with
          | None => Raise (InvalidArgumentError "m out of bounds")
          | Some om =>
              accumulate rest b
                (<[m := zip_with (λ o x, sadd o (smul v x)) om bk]> out)
          end
      end
  end.

(** [tf.sparse_tensor_dense_matmul(sp_a, b)] *)
Definition sparse_tensor_dense_matmul (a : sparse R) (b : dtensor R)
  : res (dtensor R) :=
  match b with
  | Matrix cb rb =>
      if decide ((dense_shape a).2 = length rb) then
        rows ← accumulate (entries a) rb
                 (replicate (dense_shape a).1 (replicate cb szero));
        Ret (Matrix cb rows)
      else Raise (InvalidArgumentError "inner dimensions do not match")
  | _ => Raise (InvalidArgumentError "Tensor 'b' is not a matrix")
  end.

(** Broadcasting of one dimension against another. *)
Definition bdim (m n : nat) : option nat :=
  if decide (m = n) then Some m
  else if decide (m = 1%nat) then Some n
  else if decide (n = 1%nat) then Some m
  else None.

Definition incompatible {A} : res A :=
  Raise (InvalidArgumentError "Incompatible shapes").

Definition bvec (f : R → R → R) (u v : list R) : res (list R) :=
  if decide (length u = length v) then Ret (zip_with f u v)
  else match u, v with
       | [a], _ => Ret (f a <$> v)
       | _, [b] => Ret ((λ a, f a b) <$> u)
       | _, _ => incompatible
       end.

Definition bmat (f : R → R → R) (c1 : nat) (r1 : list (list R))
    (c2 : nat) (r2 : list (list R)) : res (dtensor R) :=
  match bdim c1 c2 with
  | None => incompatible
  | Some c =>
      if decide (length r1 = length r2) then
        rows ← mapM (λ p, bvec f p.1 p.2) (zip r1 r2); Ret (Matrix c rows)
      else match r1, r2 with
           | [u], _ => rows ← mapM (bvec f u) r2; Ret (Matrix c rows)
           | _, [v] => rows ← mapM (λ u, bvec f u v) r1; Ret (Matrix c rows)
           | _, _ => incompatible
           end
  end.

(** An element-wise binary operation with NumPy-style broadcasting. *)
Definition broadcast (f : R → R → R) (a b : dtensor R) : res (dtensor R) :=
  match a, b with
  | Scalar_t x, Scalar_t y => Ret (Scalar_t (f x y))
  | Scalar_t x, Vector v => Ret (Vector (f x <$> v))
  | Vector u, Scalar_t y => Ret (Vector ((λ a, f a y) <$> u))
  | Vector u, Vector v => Vector <$> bvec f u v
  | Scalar_t x, Matrix c rows => Ret (Matrix c (fmap (M:=list) (f x) <$> rows))
  | Matrix c rows, Scalar_t y => Ret (Matrix c (fmap (M:=list) (λ a, f a y) <$> rows))
  | Vector u, Matrix c rows => bmat f (length u) [u] c rows
  | Matrix c rows, Vector v => bmat f c rows (length v) [v]
  | Matrix c1 r1, Matrix c2 r2 => bmat f c1 r1 c2 r2
  end.

(** [tf.add_n(inputs)]: at least one input, all of one shape. *)
Definition add_same (a b : dtensor R) : res (dtensor R) :=
  if decide (shape a = shape b) then broadcast sadd a b
  else Raise (InvalidArgumentError "inputs must have the same shape").

Definition add_n (inputs : list (dtensor R)) : res (dtensor R) :=
  match inputs with
  | [] => Raise (ValueError "inputs must be a list of at least one Tensor")
  | t :: rest => foldl (λ acc x, a ← acc; add_same a x) (Ret t) rest
  end.

(** [tf.nn.bias_add(value, bias)]: a vector added to every row. *)
Definition nn_bias_add (value bias : dtensor R) : res (dtensor R) :=
  match value, bias with
  | Matrix c rows, Vector b =>
      if decide (length b = c) then
        Ret (Matrix c ((λ r, zip_with sadd r b) <$> rows))
      else Raise (InvalidArgumentError "bias size must match the last dimension")
  | _, _ => Raise (ValueError "value must be a matrix and bias a vector")
  end.

(** [tf.gather(params, indices)] along the first axis. *)
Definition gather_list {A} (l : list A) (indices : list Z) : res (list A) :=
  mapM (λ i : Z,
          if bool_decide (0 ≤ i) then
            match l !! Z.to_nat i with
            | Some a => Ret a
            | None => Raise (InvalidArgumentError "indices out of range")
            end
          else Raise (InvalidArgumentError "indices out of range"))
       indices.

Definition gather (t : dtensor R) (indices : list Z) : res (dtensor R) :=
  match t with
  | Scalar_t _ => Raise (ValueError "params must be at least 1 dimensional")
  | Vector v => Vector <$> gather_list v indices
  | Matrix c rows => Matrix c <$> gather_list rows indices
  end.

(** [tf.squeeze(input)] with no axis: every dimension of size 1 goes, the
    entries stay. *)
Definition squeeze (t : dtensor R) : dtensor R :=
  match filter (λ n, n ≠ 1%nat) (shape t) with
  | [] => match flatten t with x :: _ => Scalar_t x | [] => t end
  | [_] => Vector (flatten t)
  | _ => t
  end.

Definition ListTF : TF := {|
  tensor := dtensor R;
  sparse_tensor := sparse R;
  tf_nn_dropout := nn_dropout;
  tf_matmul := matmul;
  tf_sparse_tensor_dense_matmul := sparse_tensor_dense_matmul;
  tf_add := broadcast sadd;
  tf_subtract := broadcast ssub;
  tf_abs := map_tensor sabs;
  tf_add_n := add_n;
  tf_nn_bias_add := nn_bias_add;
  tf_gather := gather;
  tf_squeeze := squeeze;
  tf_nn_relu := map_tensor (smax szero);
  tf_layers_batch_normalization := batch_normalization P;
  weight_variable_random_uniform := init_random_uniform P;
  weight_variable_he_init := init_he P;
  bias_variable_zero := init_zero P
|}.

(** The identity as a sparse tensor: ones stored on the diagonal. *)
Definition sparse_identity (n : nat) : sparse R :=
  Sparse ((λ i, (i, i, sone)) <$> seq 0 n) (n, n).

(** All stored entries of [a] lie inside its [dense_shape]. *)
Definition sparse_wf (a : sparse R) : Prop :=
  Forall (λ e, (e.1.1 < (dense_shape a).1)%nat ∧ (e.1.2 < (dense_shape a).2)%nat)
         (entries a).

End Engine.

(** ** A concrete engine over the integers

    No dropout noise, batch normalization as the identity, all-ones and
    all-twos weights of the requested shape, zero biases.  It serves to run
    the layers on explicit inputs. *)

Definition filled (x : Z) (input_dim output_dim : Z) : res (dtensor Z) :=
  Ret (Matrix (Z.to_nat output_dim)
         (replicate (Z.to_nat input_dim) (replicate (Z.to_nat output_dim) x))).

Definition toy_params : params Z :=
  Params (λ _ x, x) (λ x _, Ret x)
    (λ _ input_dim output_dim _, filled 1 input_dim output_dim)
    (λ _ input_dim output_dim _, filled 2 input_dim output_dim)
    (λ _ shape _, Ret (Vector (replicate (Z.to_nat (hd 0 shape)) 0))).

Definition ZTF : TF := ListTF toy_params.

(** A [Layer.t] as [Layer.__init__] leaves it for an explicit name. *)
Definition named (s : string) : Layer.t :=
  {| Layer.name := PStr s; Layer.logging := PBool false;
     Layer.sparse_inputs := false |}.

(** A name scope that accepts every string and nothing else. *)
Definition string_scopes : NameScope :=
  {| tf_name_scope v :=
       match v with
       | PStr _ => Ret ()
       | _ => Raise (TypeError "expected string or bytes-like object")
       end |}.

(** * Properties *)

(** ** The registry *)

Lemma upto_from_S (k : Z) (n : nat) :
  upto_from k (S n) = (k + 1) :: upto_from (k + 1) n.
Proof.
  unfold upto_from. cbn [seq fmap list_fmap]. f_equal; [lia|].
  rewrite <- fmap_S_seq, <- list_fmap_compose.
  apply list_fmap_ext. intros _ i _. cbn. lia.
Qed.

Lemma upto_from_0 (n : nat) : upto_from 0 n = Z.of_nat <$> seq 1 n.
Proof.
  unfold upto_from. rewrite <- fmap_S_seq, <- list_fmap_compose.
  apply list_fmap_ext. intros _ i _. cbn. lia.
Qed.

Lemma get_layer_uid_fst (a : string) (s : gmap string Z) :
  (get_layer_uid a s).1 = default 0 (s !! a) + 1.
Proof. unfold get_layer_uid. destruct (s !! a); reflexivity. Qed.

Lemma get_layer_uid_snd (a : string) (s : gmap string Z) :
  (get_layer_uid a s).2 = <[a := default 0 (s !! a) + 1]> s.
Proof. unfold get_layer_uid. destruct (s !! a); reflexivity. Qed.

(** The integers handed out for [b] along any run continue from [b]'s
    counter in the starting dictionary, whatever other names are asked for
    in between. *)
Lemma calls_uids_of (names : list string) (s : gmap string Z) (b : string) :
  uids_of b (calls names s).1 = upto_from (default 0 (s !! b)) (asked b names).
Proof.
  revert s. induction names as [|a rest IH]; intros s; [reflexivity|].
  cbn [calls].
  pose proof (get_layer_uid_fst a s) as Hn.
  pose proof (get_layer_uid_snd a s) as Hs.
  destruct (get_layer_uid a s) as [n s1]. cbn in Hn, Hs.
  specialize (IH s1). destruct (calls rest s1) as [out s2]. cbn [fst] in *.
  unfold uids_of, asked in *. rewrite !filter_cons. cbn [fst].
  destruct (decide (a = b)) as [->|Hab].
  - rewrite fmap_cons. cbn [length snd]. rewrite upto_from_S, IH.
    subst n s1. by rewrite lookup_insert_eq.
  - rewrite IH, Hs, lookup_insert_ne by done. reflexivity.
Qed.

Lemma calls_replicate (name : string) (N : nat) (s : gmap string Z) :
  (calls (replicate N name) s).1.*2 = upto_from (default 0 (s !! name)) N.
Proof.
  revert s. induction N as [|N IH]; intros s; [reflexivity|].
  cbn [replicate calls].
  pose proof (get_layer_uid_fst name s) as Hn.
  pose proof (get_layer_uid_snd name s) as Hs.
  destruct (get_layer_uid name s) as [n s1]. cbn in Hn, Hs.
  specialize (IH s1). destruct (calls (replicate N name) s1) as [out s2].
  cbn [fst] in *. rewrite fmap_cons, upto_from_S, IH. cbn [snd].
  subst n s1. by rewrite lookup_insert_eq.
Qed.

Lemma NoDup_upto_from (k : Z) (n : nat) : NoDup (upto_from k n).
Proof.
  unfold upto_from. apply NoDup_fmap_2; [|apply NoDup_seq].
  intros i j Hij. lia.
Qed.

(** C5. Starting from the empty registry, [N] calls of [get_layer_uid]
    with one and the same name return exactly 1, 2, …, N in this order, and
    no integer comes back twice. *)
Theorem registry_uniqueness (name : string) (N : nat) :
  (calls (replicate N name) ∅).1.*2 = Z.of_nat <$> seq 1 N
  ∧ NoDup (calls (replicate N name) ∅).1.*2.
Proof.
  pose proof (calls_replicate name N ∅) as Heq. rewrite lookup_empty in Heq.
  cbn [default] in Heq.
  rewrite Heq. split; [apply upto_from_0 | apply NoDup_upto_from].
Qed.

(** C6. A call for the name [a] leaves the counter of every other name
    [b] as it was, so the next integer for [b] is the same before and after
    it; and in any interleaving of calls, starting from the empty registry,
    the integers handed out for [a] and those handed out for [b] are each
    1, 2, 3, … on their own. *)
Theorem registry_independence (s : gmap string Z) (a b : string) :
  a ≠ b →
  (get_layer_uid a s).2 !! b = s !! b
  ∧ (get_layer_uid b (get_layer_uid a s).2).1 = (get_layer_uid b s).1
  ∧ ∀ names : list string,
      uids_of a (calls names ∅).1 = Z.of_nat <$> seq 1 (asked a names)
      ∧ uids_of b (calls names ∅).1 = Z.of_nat <$> seq 1 (asked b names).
Proof.
  intros Hab.
  assert ((get_layer_uid a s).2 !! b = s !! b) as Hframe.
  { rewrite get_layer_uid_snd. by apply lookup_insert_ne. }
  split; [exact Hframe|]. split.
  - by rewrite !get_layer_uid_fst, Hframe.
  - intros names. rewrite !calls_uids_of, !lookup_empty. cbn [default].
    by rewrite !upto_from_0.
Qed.

Lemma registry_independence_witness :
  "dense" ≠ "gcn"
  ∧ (get_layer_uid "dense" {["gcn" := 2]}).2 !! "gcn" = Some 2
  ∧ uids_of "gcn" (calls ["dense"; "gcn"; "dense"; "gcn"; "gcn"] ∅).1 = [1; 2; 3].
Proof.
  split; [discriminate|].
  pose proof (registry_independence {["gcn" := 2]} "dense" "gcn") as H.
  destruct H as (H1 & _ & H3); [discriminate|].
  split.
  - rewrite H1. reflexivity.
  - destruct (H3 ["dense"; "gcn"; "dense"; "gcn"; "gcn"]) as [_ Hb].
    rewrite Hb. reflexivity.
Defined.

(** ** Constructors *)

Lemma M_bind_raise {A B} (m : M A) (k : A → M B) (w w' : world) (e : exn) :
  m w = (Raise e, w') → (m ≫= k) w = (Raise e, w').
Proof. intros Hm. unfold mbind, M_bind. by rewrite Hm. Qed.

Lemma M_bind_ret {A B} (m : M A) (k : A → M B) (w w' : world) (a : A) :
  m w = (Ret a, w') → (m ≫= k) w = k a w'.
Proof. intros Hm. unfold mbind, M_bind. by rewrite Hm. Qed.

Lemma M_bind_ext {A B} (m1 m2 : M A) (k : A → M B) (w : world) :
  m1 w = m2 w → (m1 ≫= k) w = (m2 ≫= k) w.
Proof. intros Hm. unfold mbind, M_bind. by rewrite Hm. Qed.

Lemma check_kwargs_ok (keys : list string) :
  Forall (λ k, k ∈ allowed_kwargs) keys → check_kwargs keys = Ret ().
Proof.
  induction 1 as [|k keys Hk _ IH]; [reflexivity|].
  cbn [check_kwargs]. by rewrite bool_decide_eq_true_2.
Qed.

Lemma check_kwargs_invalid (keys : list string) :
  ¬ Forall (λ k, k ∈ allowed_kwargs) keys →
  ∃ k, k ∈ keys ∧ (k ∉ allowed_kwargs)
       ∧ check_kwargs keys
         = Raise (AssertionError ("Invalid keyword argument: " +:+ k)).
Proof.
  induction keys as [|k keys IH]; intros Hbad.
  - destruct Hbad. constructor.
  - cbn [check_kwargs]. destruct (decide (k ∈ allowed_kwargs)) as [Hk|Hk].
    + rewrite bool_decide_eq_true_2 by done.
      destruct IH as (k' & Hin & Hout & Heq).
      { intros Hall. apply Hbad. by constructor. }
      exists k'. split; [by right|done].
    + rewrite bool_decide_eq_false_2 by done.
      exists k. split; [by left|done].
Qed.

Lemma check_kwargs_skip (l1 l2 : list string) (k : string) :
  k ∈ allowed_kwargs → check_kwargs (l1 ++ k :: l2) = check_kwargs (l1 ++ l2).
Proof.
  intros Hk. induction l1 as [|a l1 IH]; cbn [app check_kwargs].
  - by rewrite bool_decide_eq_true_2.
  - by rewrite IH.
Qed.

Lemma Layer_init_invalid (cls : string) (kw : kwargs) (w : world) (e : exn) :
  check_kwargs kw.*1 = Raise e → Layer.__init__ cls kw w = (Raise e, w).
Proof.
  intros Hc. unfold Layer.__init__. apply M_bind_raise. unfold lift. by rewrite Hc.
Qed.

(** Every constructor starts with [Layer.__init__] under its own class
    name, and what that raises is what the constructor raises. *)
Lemma construct_base_raise `{TF} (c : ctor) (kw : kwargs) (w w' : world) (e : exn) :
  Layer.__init__ (class_name c) kw w = (Raise e, w') →
  construct c kw w = (Raise e, w').
Proof.
  intros Hb. destruct c; cbn [construct class_name] in *;
    unfold Dense.__init__, GCN.__init__, MLPDecoder.__init__;
    repeat (first [exact Hb | apply M_bind_raise]).
Qed.

Lemma construct_base_ext `{TF} (c : ctor) (kw kw' : kwargs) (w : world) :
  Layer.__init__ (class_name c) kw w = Layer.__init__ (class_name c) kw' w →
  construct c kw w = construct c kw' w.
Proof.
  intros Hb. destruct c; cbn [construct class_name] in *;
    unfold Dense.__init__, GCN.__init__, MLPDecoder.__init__;
    repeat (first [exact Hb | apply M_bind_ext]).
Qed.

Lemma kwargs_get_app_absent (key : string) (kw1 kw2 : kwargs) :
  key ∉ kw1.*1 → kwargs_get key (kw1 ++ kw2) = kwargs_get key kw2.
Proof.
  induction kw1 as [|[k v] kw1 IH]; intros Hk; [reflexivity|].
  cbn [app kwargs_get]. rewrite fmap_cons in Hk. cbn [fst] in Hk.
  apply not_elem_of_cons in Hk as [Hne Hk].
  destruct (String.eqb_spec k key) as [->|_]; [done|]. by apply IH.
Qed.

Lemma kwargs_get_absent (key : string) (kw : kwargs) :
  key ∉ kw.*1 → kwargs_get key kw = None.
Proof.
  intros Hk. rewrite <- (app_nil_r kw). by rewrite kwargs_get_app_absent.
Qed.

Lemma kwargs_get_skip (key k : string) (v : pyval) (kw1 kw2 : kwargs) :
  k ≠ key →
  kwargs_get key (kw1 ++ (k, v) :: kw2) = kwargs_get key (kw1 ++ kw2).
Proof.
  intros Hne. induction kw1 as [|[k' v'] kw1 IH]; cbn [app kwargs_get].
  - by destruct (String.eqb_spec k key).
  - by rewrite IH.
Qed.

(** A falsy ["name"] entry is indistinguishable from none at all. *)
Lemma Layer_init_falsy_name (cls : string) (kw1 kw2 : kwargs) (v : pyval)
    (w : world) :
  truthy v = false → "name" ∉ kw1.*1 → "name" ∉ kw2.*1 →
  Layer.__init__ cls (kw1 ++ ("name", v) :: kw2) w
  = Layer.__init__ cls (kw1 ++ kw2) w.
Proof.
  intros Hv H1 H2. unfold Layer.__init__.
  rewrite !fmap_app, fmap_cons. cbn [fst].
  rewrite check_kwargs_skip by (unfold allowed_kwargs; set_solver).
  rewrite (kwargs_get_skip "logging" "name") by done.
  rewrite !(kwargs_get_app_absent "name") by done.
  cbn [kwargs_get]. rewrite (kwargs_get_absent "name" kw2) by done.
  cbn [String.eqb Ascii.eqb Bool.eqb default from_option id]. rewrite Hv.
  reflexivity.
Qed.

Lemma Layer_init_auto (cls : string) (kw : kwargs) (w : world) :
  Forall (λ k, k ∈ allowed_kwargs) kw.*1 →
  truthy (default PNone (kwargs_get "name" kw)) = false →
  Layer.__init__ cls kw w
  = (Ret {| Layer.name :=
              PStr (lower cls +:+ "_"
                    +:+ pretty (get_layer_uid (lower cls) (layer_uids w)).1);
            Layer.logging := default (PBool false) (kwargs_get "logging" kw);
            Layer.sparse_inputs := false |},
     World (get_layer_uid (lower cls) (layer_uids w)).2 (summaries w)).
Proof.
  intros Hok Hname. unfold Layer.__init__.
  unfold mbind at 1. unfold M_bind, lift. rewrite check_kwargs_ok by done.
  rewrite Hname. cbn [negb]. unfold mbind, M_bind, get_layer_uid_M, mret, M_ret.
  by destruct (get_layer_uid (lower cls) (layer_uids w)).
Qed.

Lemma Layer_init_name (cls : string) (kw : kwargs) (w w' : world) (l : Layer.t) :
  Layer.__init__ cls kw w = (Ret l, w') →
  truthy (default PNone (kwargs_get "name" kw)) = false →
  Layer.name l
  = PStr (lower cls +:+ "_" +:+ pretty (get_layer_uid (lower cls) (layer_uids w)).1)
  ∧ layer_uids w' = (get_layer_uid (lower cls) (layer_uids w)).2.
Proof.
  intros Hinit Hname.
  destruct (decide (Forall (λ k, k ∈ allowed_kwargs) kw.*1)) as [Hok|Hbad].
  - rewrite Layer_init_auto in Hinit by done. by simplify_eq.
  - apply check_kwargs_invalid in Hbad as (k & _ & _ & Hc).
    rewrite (Layer_init_invalid _ _ _ _ Hc) in Hinit. discriminate.
Qed.

Lemma M_bind_inv_ret {A B} (m : M A) (k : A → M B) (w w' : world) (b : B) :
  (m ≫= k) w = (Ret b, w') →
  ∃ a w1, m w = (Ret a, w1) ∧ k a w1 = (Ret b, w').
Proof.
  unfold mbind, M_bind. destruct (m w) as [[a|e] w1]; [eauto|discriminate].
Qed.

Lemma lift_inv {A} (r : res A) (w w' : world) (x : res A) :
  lift r w = (x, w') → x = r ∧ w' = w.
Proof. unfold lift. by intros [= <- <-]. Qed.

Lemma mret_inv {A} (a : A) (w w' : world) (x : res A) :
  mret (M:=M) a w = (x, w') → x = Ret a ∧ w' = w.
Proof. unfold mret, M_ret. by intros [= <- <-]. Qed.

Lemma log_vars_uids (self : Layer.t) (vars : list string) (w w' : world)
    (r : res unit) :
  Layer._log_vars self vars w = (r, w') → layer_uids w' = layer_uids w.
Proof.
  revert w. induction vars as [|v vars IH]; intros w; cbn [Layer._log_vars].
  - by intros [_ ->]%mret_inv.
  - unfold mbind at 1. unfold M_bind, lift.
    destruct (str_add (Layer.name self) "/vars/"); [|by intros [= _ <-]].
    unfold mbind, M_bind, tf_summary_histogram. intros Hr.
    apply IH in Hr. exact Hr.
Qed.

(** Splitting a successful constructor run into its steps. *)
Ltac split_run H :=
  repeat match type of H with
    | (_ ≫= _) _ = (Ret _, _) =>
        let H1 := fresh "Hstep" in
        apply M_bind_inv_ret in H as (? & ? & H1 & H);
        try (apply lift_inv in H1 as [? ?]; subst)
    | mret _ _ = (_, _) => apply mret_inv in H as [? ?]; simplify_eq
    end.

Lemma optional_var_uids {A} (flag : bool) (r : res A) (w w' : world)
    (x : res (option A)) :
  (if flag then b ← lift r; mret (Some b) else mret None) w = (x, w') → w' = w.
Proof.
  destruct flag; [|by intros [_ ->]%mret_inv].
  unfold mbind, M_bind, lift. destruct r; by intros [= _ <-].
Qed.

Lemma optional_log_uids (flag : bool) (self : Layer.t) (vars : list string)
    (w w' : world) (r : res unit) :
  (if flag then Layer._log_vars self vars else mret ()) w = (r, w') →
  layer_uids w' = layer_uids w.
Proof.
  destruct flag; [apply log_vars_uids|]. by intros [_ ->]%mret_inv.
Qed.

(** A constructor that returns has run [Layer.__init__] under its own
    class name; the object keeps the name chosen there, and nothing after
    that step touches the registry. *)
Lemma construct_ret_base `{TF} (c : ctor) (kw : kwargs) (w w' : world)
    (o : layer_obj) :
  construct c kw w = (Ret o, w') →
  ∃ l wl, Layer.__init__ (class_name c) kw w = (Ret l, wl)
          ∧ obj_name o = Layer.name l ∧ layer_uids w' = layer_uids wl.
Proof.
  intros Hc. destruct c; cbn [construct class_name] in Hc;
    unfold Dense.__init__, GCN.__init__, MLPDecoder.__init__ in Hc.
  - split_run Hc. eauto.
  - apply M_bind_inv_ret in Hc as (l & w1 & Hc & Hr).
    apply mret_inv in Hr as [[= ->] ->].
    apply M_bind_inv_ret in Hc as (base & wl & Hbase & Hc).
    exists base, wl. split; [done|].
    apply M_bind_inv_ret in Hc as (scope & ? & [_ ->]%lift_inv & Hc).
    apply M_bind_inv_ret in Hc as (ws & ? & [_ ->]%lift_inv & Hc).
    apply M_bind_inv_ret in Hc as (nb & ? & ->%optional_var_uids & Hc).
    apply M_bind_inv_ret in Hc as (? & ? & Hlog%optional_log_uids & Hc).
    apply mret_inv in Hc as [[= ->] ->]. done.
  - apply M_bind_inv_ret in Hc as (l & w1 & Hc & Hr).
    apply mret_inv in Hr as [[= ->] ->].
    apply M_bind_inv_ret in Hc as (base & wl & Hbase & Hc).
    exists base, wl. split; [done|].
    apply M_bind_inv_ret in Hc as (? & ? & [_ ->]%lift_inv & Hc).
    apply M_bind_inv_ret in Hc as (scope & ? & [_ ->]%lift_inv & Hc).
    apply M_bind_inv_ret in Hc as (ws & ? & [_ ->]%lift_inv & Hc).
    apply M_bind_inv_ret in Hc as (nb & ? & ->%optional_var_uids & Hc).
    apply M_bind_inv_ret in Hc as (? & ? & Hlog%optional_log_uids & Hc).
    apply mret_inv in Hc as [[= ->] ->]. done.
  - apply M_bind_inv_ret in Hc as (l & w1 & Hc & Hr).
    apply mret_inv in Hr as [[= ->] ->].
    apply M_bind_inv_ret in Hc as (base & wl & Hbase & Hc).
    exists base, wl. split; [done|].
    apply M_bind_inv_ret in Hc as (scope & ? & [_ ->]%lift_inv & Hc).
    apply M_bind_inv_ret in Hc as (ws & ? & [_ ->]%lift_inv & Hc).
    apply M_bind_inv_ret in Hc as (nb & ? & ->%optional_var_uids & Hc).
    apply M_bind_inv_ret in Hc as (? & ? & Hlog%optional_log_uids & Hc).
    apply mret_inv in Hc as [[= ->] ->]. done.
Qed.

Lemma Layer_init_ok (cls : string) (kw : kwargs) (w : world) :
  Forall (λ k, k ∈ allowed_kwargs) kw.*1 →
  ∃ l w1, Layer.__init__ cls kw w = (Ret l, w1).
Proof.
  intros Hok. unfold Layer.__init__.
  unfold mbind at 1. unfold M_bind, lift. rewrite check_kwargs_ok by done.
  destruct (negb (truthy (default PNone (kwargs_get "name" kw)))).
  - unfold mbind, M_bind, get_layer_uid_M, mret, M_ret.
    destruct (get_layer_uid (lower cls) (layer_uids w)). eauto.
  - unfold mbind, M_bind, mret, M_ret. eauto.
Qed.

(** C7. A keyword argument other than [name] and [logging] makes the
    constructor of every layer class raise the assertion error
    "Invalid keyword argument: <that argument>" before it does anything
    else (the process-wide state is as before the call).  A [GCN] whose
    [init] is neither "def" nor "he" raises an assertion error as well, in
    the state [Layer.__init__] left; nothing in a constructor catches
    either error, the caller receives it. *)
Theorem configuration_errors `{TF} :
  (∀ (c : ctor) (kw : kwargs) (w : world),
     ¬ Forall (λ k, k ∈ allowed_kwargs) kw.*1 →
     ∃ k, k ∈ kw.*1 ∧ (k ∉ allowed_kwargs)
          ∧ construct c kw w
            = (Raise (AssertionError ("Invalid keyword argument: " +:+ k)), w))
  ∧ (∀ input_dim output_dim support num_support is_train dropout act bias
       batch_norm (init : string) (kw : kwargs) (w : world),
       init ∉ ["def"; "he"] →
       ∃ msg,
         construct (New_GCN input_dim output_dim support num_support is_train
                      dropout act bias batch_norm init) kw w
         = (Raise (AssertionError msg), (Layer.__init__ "GCN" kw w).2)).
Proof.
  split.
  - intros c kw w Hbad.
    apply check_kwargs_invalid in Hbad as (k & Hin & Hout & Hc).
    exists k. split; [done|]. split; [done|].
    apply construct_base_raise. by apply Layer_init_invalid.
  - intros input_dim output_dim support num_support is_train dropout act bias
      batch_norm init kw w Hinit.
    destruct (decide (Forall (λ k, k ∈ allowed_kwargs) kw.*1)) as [Hok|Hbad].
    + destruct (Layer_init_ok "GCN" kw w Hok) as (l & w1 & Hl).
      exists "". rewrite Hl. cbn [snd construct].
      apply M_bind_raise. unfold GCN.__init__.
      rewrite (M_bind_ret _ _ _ _ _ Hl).
      apply M_bind_raise. unfold lift, assert.
      by rewrite bool_decide_eq_false_2.
    + apply check_kwargs_invalid in Hbad as (k & _ & _ & Hc).
      exists ("Invalid keyword argument: " +:+ k).
      rewrite (Layer_init_invalid "GCN" _ w _ Hc). cbn [snd].
      apply (construct_base_raise (New_GCN _ _ _ _ _ _ _ _ _ _)).
      by apply Layer_init_invalid.
Qed.

Lemma configuration_errors_witness :
  construct (H:=ZTF) (New_MLPDecoder 2 [0] [1] 4 0 identity 1 false)
    [("logging", PBool true); ("units", PInt 3)] empty_world
  = (Raise (AssertionError "Invalid keyword argument: units"), empty_world)
  ∧ ∃ msg,
      construct (New_GCN (H:=ZTF) 4 3 [] 2 true 0 relu false false "glorot")
        [("name", PStr "enc")] empty_world
      = (Raise (AssertionError msg), empty_world).
Proof.
  destruct (configuration_errors (H:=ZTF)) as [Hkw Hinit]. split.
  - destruct (Hkw (New_MLPDecoder (H:=ZTF) 2 [0] [1] 4 0 identity 1 false)
                [("logging", PBool true); ("units", PInt 3)] empty_world)
      as (k & Hin & Hout & Hk).
    + compute_done.
    + cbn in Hin. apply elem_of_cons in Hin as [->|Hin].
      { exfalso. apply Hout. compute_done. }
      apply list_elem_of_singleton in Hin as ->. exact Hk.
  - apply (Hinit 4 3 [] 2 true 0%Q relu false false "glorot"
             [("name", PStr "enc")] empty_world).
    compute_done.
Defined.

(** C10. [name=""] is as good as no [name]: the constructor of every
    layer class returns, raises and changes the state exactly as it does
    without the argument; an object it returns is named
    <lowercased class name>_<uid> with the uid the registry hands out for
    that lowercased name; and when the other keyword arguments are
    acceptable, [Layer.__init__] does return such a name. *)
Theorem empty_name_auto_naming `{TF} (c : ctor) (kw1 kw2 : kwargs) (w : world) :
  "name" ∉ kw1.*1 → "name" ∉ kw2.*1 →
  let kw := kw1 ++ ("name", PStr "") :: kw2 in
  let layer := lower (class_name c) in
  let uid := get_layer_uid layer (layer_uids w) in
  construct c kw w = construct c (kw1 ++ kw2) w
  ∧ (∀ o w', construct c kw w = (Ret o, w') →
       obj_name o = PStr (layer +:+ "_" +:+ pretty uid.1)
       ∧ layer_uids w' = uid.2)
  ∧ (Forall (λ k, k ∈ allowed_kwargs) (kw1 ++ kw2).*1 →
     ∃ l, Layer.__init__ (class_name c) kw w
          = (Ret l, World uid.2 (summaries w))
          ∧ Layer.name l = PStr (layer +:+ "_" +:+ pretty uid.1)).
Proof.
  intros H1 H2 kw layer uid.
  assert (truthy (default PNone (kwargs_get "name" kw)) = false) as Hname.
  { subst kw. rewrite kwargs_get_app_absent by done. reflexivity. }
  split; [|split].
  - apply construct_base_ext. by apply Layer_init_falsy_name.
  - intros o w' Hc.
    apply construct_ret_base in Hc as (l & wl & Hl & -> & ->).
    by apply Layer_init_name in Hl.
  - intros Hok. eexists. split.
    + apply Layer_init_auto; [|done]. subst kw.
      rewrite fmap_app, fmap_cons. rewrite fmap_app in Hok.
      apply Forall_app in Hok as [Hok1 Hok2].
      apply Forall_app. split; [done|]. constructor; [|done].
      cbn. unfold allowed_kwargs. set_solver.
    + reflexivity.
Qed.

Lemma empty_name_auto_naming_witness :
  construct (New_Dense (H:=ZTF) 2 3 true 0 relu false false)
    [("name", PStr ""); ("logging", PBool true)]
    (World {["dense" := 4]} [])
  = construct (New_Dense (H:=ZTF) 2 3 true 0 relu false false)
      [("logging", PBool true)] (World {["dense" := 4]} [])
  ∧ ∃ o w', construct (New_Dense (H:=ZTF) 2 3 true 0 relu false false)
              [("name", PStr ""); ("logging", PBool true)]
              (World {["dense" := 4]} []) = (Ret o, w')
            ∧ obj_name o = PStr "dense_5".
Proof.
  destruct (empty_name_auto_naming
              (New_Dense (H:=ZTF) 2 3 true 0 relu false false)
              [] [("logging", PBool true)] (World {["dense" := 4]} []))
    as (Heq & Hname & _).
  - compute_done.
  - compute_done.
  - split; [exact Heq|].
    destruct (construct (New_Dense (H:=ZTF) 2 3 true 0 relu false false)
                ([] ++ ("name", PStr "") :: [("logging", PBool true)])
                (World {["dense" := 4]} [])) as [[o|e] w'] eqn:Hc.
    + exists o, w'. split; [exact Hc|].
      destruct (Hname o w' eq_refl) as [Hn _]. rewrite Hn. reflexivity.
    + exfalso. revert Hc. vm_compute. discriminate.
Defined.

(** C9. The decoder's constructor makes the same object, in the same
    state, whatever [num_classes] it is given; hence two decoders built
    from equal arguments apart from [num_classes] compute equal outputs on
    every input. *)
Theorem num_classes_noninterference `{TF} (num_classes1 num_classes2 : Z)
    (r_indices c_indices : list Z) (input_dim : Z) (dropout : Q)
    (act : tensor → res tensor) (n_out : Z) (use_bias : bool) (kw : kwargs)
    (w : world) :
  MLPDecoder.__init__ num_classes1 r_indices c_indices input_dim dropout act
    n_out use_bias kw w
  = MLPDecoder.__init__ num_classes2 r_indices c_indices input_dim dropout act
      n_out use_bias kw w
  ∧ ∀ l1 l2 w1 w2,
      MLPDecoder.__init__ num_classes1 r_indices c_indices input_dim dropout
        act n_out use_bias kw w = (Ret l1, w1) →
      MLPDecoder.__init__ num_classes2 r_indices c_indices input_dim dropout
        act n_out use_bias kw w = (Ret l2, w2) →
      ∀ inputs, MLPDecoder._call l1 inputs = MLPDecoder._call l2 inputs.
Proof.
  split; [reflexivity|].
  intros l1 l2 w1 w2 Hl1 Hl2 inputs.
  assert (MLPDecoder.__init__ num_classes1 r_indices c_indices input_dim
            dropout act n_out use_bias kw w
          = MLPDecoder.__init__ num_classes2 r_indices c_indices input_dim
              dropout act n_out use_bias kw w) as Heq by reflexivity.
  rewrite Hl1, Hl2 in Heq. by simplify_eq.
Qed.

Lemma num_classes_noninterference_witness :
  ∃ l1 l2 w1 w2,
    MLPDecoder.__init__ (H:=ZTF) 2 [0; 1] [1; 0] 2 0 identity 1 false [] empty_world
    = (Ret l1, w1)
    ∧ MLPDecoder.__init__ (H:=ZTF) 7 [0; 1] [1; 0] 2 0 identity 1 false [] empty_world
      = (Ret l2, w2)
    ∧ MLPDecoder._call l1 (Matrix 2 [[1; 2]; [4; 6]] : tensor (TF:=ZTF))
      = MLPDecoder._call l2 (Matrix 2 [[1; 2]; [4; 6]])
    ∧ MLPDecoder._call l1 (Matrix 2 [[1; 2]; [4; 6]]) = Ret (Vector [7; 7]).
Proof.
  destruct (MLPDecoder.__init__ (H:=ZTF) 2 [0; 1] [1; 0] 2 0 identity 1 false
              [] empty_world) as [[l1|e1] w1] eqn:H1;
    [|exfalso; revert H1; vm_compute; discriminate].
  destruct (MLPDecoder.__init__ (H:=ZTF) 7 [0; 1] [1; 0] 2 0 identity 1 false
              [] empty_world) as [[l2|e2] w2] eqn:H2;
    [|exfalso; revert H2; vm_compute; discriminate].
  exists l1, l2, w1, w2. split; [reflexivity|]. split; [reflexivity|].
  destruct (num_classes_noninterference (H:=ZTF) 2 7 [0; 1] [1; 0] 2 0%Q
              identity 1 false [] empty_world) as [_ Hcall].
  split; [exact (Hcall l1 l2 w1 w2 H1 H2 _)|].
  revert H1. vm_compute. intros [= <- _]. reflexivity.
Defined.

(** ** Dense *)

(** C4. With [batch_norm] set, [Dense._call] does not look at the bias:
    the output is the same whether [bias] is set or not and whatever
    [self.vars['node_bias']] holds, even nothing at all; in particular the
    layer with [bias=True] and a zero bias computes what the layer with
    [bias=False] computes from the same weights and input. *)
Theorem dense_bias_batch_norm_exclusive `{TF} (l1 l2 : Dense.t) (input : tensor) :
  Dense.batch_norm l1 = true → Dense.batch_norm l2 = true →
  Dense.bias l1 = true → Dense.bias l2 = false →
  Dense.weights l1 = Dense.weights l2 →
  Dense.dropout l1 = Dense.dropout l2 →
  Dense.act l1 = Dense.act l2 →
  Dense.is_train l1 = Dense.is_train l2 →
  Dense._call l1 input = Dense._call l2 input
  ∧ Dense._call l1 input
    = (x ← tf_nn_dropout input (1 - Dense.dropout l1)%Q;
       x ← tf_matmul x (Dense.weights l1);
       x ← Dense.act l1 x;
       tf_layers_batch_normalization x (Dense.is_train l1)).
Proof.
  intros Hbn1 Hbn2 Hb1 Hb2 Hw Hd Ha Ht. unfold Dense._call.
  rewrite Hbn1, Hbn2, Hb1, Hb2, <- Hw, <- Hd, <- Ha, <- Ht. cbn [andb negb].
  split; [reflexivity|].
  destruct (tf_nn_dropout input (1 - Dense.dropout l1)%Q) as [x|]; [|done].
  cbn. destruct (tf_matmul x (Dense.weights l1)) as [y|]; [|done].
  cbn. destruct (Dense.act l1 y) as [z|]; [|done].
  cbn. by destruct (tf_layers_batch_normalization z (Dense.is_train l1)).
Qed.

Lemma dense_bias_batch_norm_exclusive_witness :
  let W : tensor (TF:=ZTF) := Matrix 2 [[1; 0]; [2; -1]] in
  let l1 := @Dense.Build_t ZTF (named "dense_1") W (Some (Vector [5; 5]))
              true true true 0%Q identity in
  let l2 := @Dense.Build_t ZTF (named "dense_2") W None
              false true true 0%Q identity in
  Dense._call l1 (Matrix 2 [[1; 1]; [3; 4]]) = Dense._call l2 (Matrix 2 [[1; 1]; [3; 4]])
  ∧ Dense._call l1 (Matrix 2 [[1; 1]; [3; 4]]) = Ret (Matrix 2 [[3; -1]; [11; -4]]).
Proof.
  intros W l1 l2.
  destruct (dense_bias_batch_norm_exclusive (H:=ZTF) l1 l2
              (Matrix 2 [[1; 1]; [3; 4]])) as [Heq Hrun]; try reflexivity.
  split; [exact Heq|]. rewrite Hrun. reflexivity.
Defined.

(** ** GCN: the support and the weights *)

Lemma index_nonneg {A} (l : list A) (i : Z) :
  0 ≤ i →
  index l i = match l !! Z.to_nat i with
              | Some a => Ret a
              | None => Raise (IndexError "list index out of range")
              end.
Proof.
  intros Hi. unfold index. rewrite (bool_decide_eq_true_2 (0 ≤ i)) by done.
  cbv zeta. by rewrite bool_decide_eq_true_2.
Qed.

Lemma mapM_res_length {A B} (f : A → res B) (l : list A) (k : list B) :
  mapM f l = Ret k → length k = length l.
Proof.
  revert k. induction l as [|a l IH]; intros k; cbn [mapM].
  - by intros [= <-].
  - destruct (f a) as [b|]; [|done]. cbn.
    destruct (mapM f l) as [k'|]; [|done]. cbn.
    intros [= <-]. cbn. f_equal. by apply IH.
Qed.

Lemma length_range (n : Z) : length (range n) = Z.to_nat n.
Proof. unfold range. by rewrite length_fmap, length_seq. Qed.

Lemma elem_of_range (n i : Z) : i ∈ range n ↔ 0 ≤ i < n.
Proof.
  unfold range. rewrite list_elem_of_fmap. split.
  - intros (k & -> & Hk). apply elem_of_seq in Hk. lia.
  - intros Hi. exists (Z.to_nat i). split; [lia|]. apply elem_of_seq. lia.
Qed.

Lemma index_fails {A} (l : list A) (i : Z) :
  Z.of_nat (length l) ≤ i → fails (index l i).
Proof.
  intros Hi. rewrite index_nonneg by lia.
  rewrite lookup_ge_None_2 by lia. by eexists.
Qed.

Lemma index_take {A} (l : list A) (n : nat) (i : Z) :
  0 ≤ i < Z.of_nat n → index (take n l) i = index l i.
Proof.
  intros Hi. rewrite !index_nonneg by lia.
  rewrite lookup_take_lt by lia. done.
Qed.

(** The loop stops with an exception as soon as an index has no weight. *)
Lemma gcn_loop_fails `{TF} (self : GCN.t) (x_n : tensor) (idx : list Z)
    (supports_n : list tensor) (i : Z) :
  i ∈ idx → fails (index (GCN.weights self) i) →
  fails (GCN.loop self x_n idx supports_n).
Proof.
  intros Hin [e He]. revert supports_n.
  induction idx as [|j idx IH]; intros supports_n; [by apply elem_of_nil in Hin|].
  cbn [GCN.loop]. destruct (decide (j = i)) as [->|Hne].
  - rewrite He. by eexists.
  - apply elem_of_cons in Hin as [->|Hin]; [done|].
    destruct (index (GCN.weights self) j) as [wn|]; [|by eexists]. cbn.
    destruct (dot _ wn _) as [tmp_n|]; [|by eexists]. cbn.
    destruct (index (GCN.support self) j) as [sup|]; [|by eexists]. cbn.
    destruct (tf_sparse_tensor_dense_matmul sup tmp_n) as [h|]; [|by eexists].
    cbn. by apply IH.
Qed.

Lemma gcn_call_fails `{TF} (self : GCN.t) (input : tensor) :
  (length (GCN.weights self) < length (GCN.support self))%nat →
  fails (GCN._call self input).
Proof.
  intros Hlen. unfold GCN._call.
  destruct (tf_nn_dropout input _) as [x_n|]; [|by eexists]. cbn.
  destruct (gcn_loop_fails self x_n
              (range (Z.of_nat (length (GCN.support self)))) []
              (Z.of_nat (length (GCN.weights self)))) as [e He].
  - apply elem_of_range. lia.
  - apply index_fails. lia.
  - rewrite He. by eexists.
Qed.

(** Weights past the last support are never read. *)
Lemma gcn_loop_take `{TF} (self : GCN.t) (x_n : tensor) (idx : list Z)
    (supports_n : list tensor) (n : nat) :
  Forall (λ i, 0 ≤ i < Z.of_nat n) idx →
  GCN.loop (GCN.with_weights (take n (GCN.weights self)) self) x_n idx supports_n
  = GCN.loop self x_n idx supports_n.
Proof.
  intros Hidx. revert supports_n.
  induction Hidx as [|i idx Hi _ IH]; intros supports_n; [reflexivity|].
  cbn [GCN.loop GCN.with_weights GCN.weights GCN.base GCN.support].
  rewrite index_take by done.
  destruct (index (GCN.weights self) i) as [wn|]; [|done]. cbn.
  destruct (dot _ wn _) as [tmp_n|]; [|done]. cbn.
  destruct (index (GCN.support self) i) as [sup|]; [|done]. cbn.
  destruct (tf_sparse_tensor_dense_matmul sup tmp_n) as [h|]; [|done].
  cbn. apply IH.
Qed.

Lemma gcn_call_take `{TF} (self : GCN.t) (input : tensor) :
  GCN._call (GCN.with_weights (take (length (GCN.support self)) (GCN.weights self)) self) input
  = GCN._call self input.
Proof.
  unfold GCN._call. cbn [GCN.with_weights GCN.dropout GCN.support GCN.bias
                         GCN.bias_n GCN.act GCN.batch_norm GCN.is_train].
  destruct (tf_nn_dropout input _) as [x_n|]; [|done]. cbn.
  rewrite gcn_loop_take; [done|].
  apply Forall_forall. intros i Hi. apply elem_of_range in Hi. lia.
Qed.

(** [GCN.__init__] stores the support and does nothing else with it. *)
Lemma gcn_init_support `{TF} (input_dim output_dim : Z)
    (support : list sparse_tensor) (num_support : Z) (is_train : bool)
    (dropout : Q) (act : tensor → res tensor) (bias batch_norm : bool)
    (init : string) (kw : kwargs) (w : world) :
  GCN.__init__ input_dim output_dim support num_support is_train dropout act
    bias batch_norm init kw w
  = (GCN.with_support support
       <$> (GCN.__init__ input_dim output_dim [] num_support is_train dropout
              act bias batch_norm init kw w).1,
     (GCN.__init__ input_dim output_dim [] num_support is_train dropout
        act bias batch_norm init kw w).2).
Proof.
  unfold GCN.__init__, mbind, M_bind, lift.
  destruct (Layer.__init__ "GCN" kw w) as [[base|] w1]; [|done].
  destruct (assert _); [|done].
  destruct (str_add _ _); [|done].
  destruct (mapM _ _) as [ws|]; [|done].
  destruct bias.
  - destruct (bias_variable_zero _ _ _) as [b|]; [|done].
    unfold mret, M_ret. unfold GCN.vars. cbn [GCN.bias_n].
    destruct (truthy _); [|done].
    by destruct (Layer._log_vars _ _ _) as [[[]|] ?].
  - unfold mret, M_ret. unfold GCN.vars. cbn [GCN.bias_n].
    destruct (truthy _); [|done].
    by destruct (Layer._log_vars _ _ _) as [[[]|] ?].
Qed.

Lemma gcn_init_weights `{TF} (input_dim output_dim : Z)
    (support : list sparse_tensor) (num_support : Z) (is_train : bool)
    (dropout : Q) (act : tensor → res tensor) (bias batch_norm : bool)
    (init : string) (kw : kwargs) (w w' : world) (l : GCN.t) :
  GCN.__init__ input_dim output_dim support num_support is_train dropout act
    bias batch_norm init kw w = (Ret l, w') →
  GCN.support l = support ∧ length (GCN.weights l) = Z.to_nat num_support.
Proof.
  unfold GCN.__init__, mbind, M_bind, lift.
  destruct (Layer.__init__ "GCN" kw w) as [[base|] w1]; [|done].
  destruct (assert _); [|done].
  destruct (str_add _ _); [|done].
  destruct (mapM _ _) as [ws|] eqn:Hws; [|done].
  apply mapM_res_length in Hws. rewrite length_range in Hws.
  destruct bias.
  - destruct (bias_variable_zero _ _ _) as [b|]; [|done].
    unfold mret, M_ret. destruct (truthy _).
    + destruct (Layer._log_vars _ _ _) as [[[]|] ?]; [|done]. by intros [= <- _].
    + by intros [= <- _].
  - unfold mret, M_ret. destruct (truthy _).
    + destruct (Layer._log_vars _ _ _) as [[[]|] ?]; [|done]. by intros [= <- _].
    + by intros [= <- _].
Qed.

(** C2, the claim as stated fails: a [GCN] built with one support and
    [num_support = 2] is returned by the constructor, and its core
    computation then returns a result as well. *)
Lemma gcn_support_count_counterexample :
  length [sparse_identity (R:=Z) 2] ≠ Z.to_nat 2
  ∧ ∃ l w',
      GCN.__init__ (H:=ZTF) 2 3 [sparse_identity 2] 2 true 0 identity false
        false "def" [] empty_world = (Ret l, w')
      ∧ GCN._call l (Matrix 2 [[1; 2]; [3; 4]])
        = Ret (Matrix 3 [[3; 3; 3]; [7; 7; 7]]).
Proof.
  split; [compute_done|].
  destruct (GCN.__init__ (H:=ZTF) 2 3 [sparse_identity 2] 2 true 0 identity
              false false "def" [] empty_world) as [[l|e] w'] eqn:Hl;
    [|exfalso; revert Hl; vm_compute; discriminate].
  exists l, w'. split; [reflexivity|].
  revert Hl. vm_compute. intros [= <- _]. reflexivity.
Qed.

(** C2, amended. [GCN.__init__] never compares the support with
    [num_support]: it returns or raises as it would for any other support,
    stores the support as given, and creates [num_support] weight
    matrices.  A support longer than that is only noticed when the core
    computation runs: it raises, on every input.  A support that is not
    longer is accepted, and the computation reads only as many weight
    matrices as there are supports. *)
Theorem gcn_support_count `{TF} (input_dim output_dim : Z)
    (support : list sparse_tensor) (num_support : Z) (is_train : bool)
    (dropout : Q) (act : tensor → res tensor) (bias batch_norm : bool)
    (init : string) (kw : kwargs) (w : world) :
  GCN.__init__ input_dim output_dim support num_support is_train dropout act
    bias batch_norm init kw w
  = (GCN.with_support support
       <$> (GCN.__init__ input_dim output_dim [] num_support is_train dropout
              act bias batch_norm init kw w).1,
     (GCN.__init__ input_dim output_dim [] num_support is_train dropout
        act bias batch_norm init kw w).2)
  ∧ ∀ l w',
      GCN.__init__ input_dim output_dim support num_support is_train dropout
        act bias batch_norm init kw w = (Ret l, w') →
      GCN.support l = support
      ∧ length (GCN.weights l) = Z.to_nat num_support
      ∧ ((Z.to_nat num_support < length support)%nat →
         ∀ input, fails (GCN._call l input))
      ∧ ((length support ≤ Z.to_nat num_support)%nat →
         ∀ input,
           GCN._call l input
           = GCN._call (GCN.with_weights
                          (take (length support) (GCN.weights l)) l) input).
Proof.
  split; [apply gcn_init_support|].
  intros l w' Hl. apply gcn_init_weights in Hl as [Hs Hw].
  split; [done|]. split; [done|]. split.
  - intros Hlen input. apply gcn_call_fails. rewrite Hs, Hw. lia.
  - intros _ input. rewrite <- Hs. symmetry. apply gcn_call_take.
Qed.

Lemma gcn_support_count_witness :
  ∃ l w',
    GCN.__init__ (H:=ZTF) 2 3
      [sparse_identity 2; sparse_identity 2; sparse_identity 2] 2 true 0
      identity false false "def" [] empty_world = (Ret l, w')
    ∧ length (GCN.weights l) = 2%nat
    ∧ fails (GCN._call l (Matrix 2 [[1; 2]; [3; 4]])).
Proof.
  destruct (GCN.__init__ (H:=ZTF) 2 3
              [sparse_identity 2; sparse_identity 2; sparse_identity 2] 2
              true 0 identity false false "def" [] empty_world)
    as [[l|e] w'] eqn:Hl;
    [|exfalso; revert Hl; vm_compute; discriminate].
  exists l, w'. split; [reflexivity|].
  destruct (gcn_support_count (H:=ZTF) 2 3
              [sparse_identity 2; sparse_identity 2; sparse_identity 2] 2
              true 0%Q identity false false "def" [] empty_world)
    as [_ Hg].
  destruct (Hg l w' Hl) as (_ & Hw & Hfail & _).
  split; [exact Hw|]. apply Hfail. cbn. lia.
Defined.

(** ** The executable engine *)

Section ListEngine.
Context {R : Type} `{Scalar R}.
Variable P : params R.

Lemma nn_dropout_zero (x : dtensor R) (rate : Q) :
  (rate == 0)%Q → nn_dropout P x (1 - rate)%Q = Ret x.
Proof.
  intros Hr. unfold nn_dropout.
  assert (1 - rate == 1)%Q as H1 by (rewrite Hr; reflexivity).
  assert (Qle_bool (1 - rate) 0 = false) as ->.
  { destruct (Qle_bool (1 - rate) 0) eqn:Hle; [|done].
    apply Qle_bool_iff in Hle. rewrite H1 in Hle. by vm_compute in Hle. }
  assert (Qle_bool (1 - rate) 1 = true) as ->.
  { apply Qle_bool_iff. rewrite H1. apply Qle_refl. }
  cbn [negb andb]. by rewrite (proj2 (Qeq_bool_iff _ _) H1).
Qed.

Lemma matmul_rows (d k : nat) (xrows wrows : list (list R)) :
  length wrows = d →
  matmul (Matrix d xrows) (Matrix k wrows)
  = Ret (Matrix k (mm_row k wrows <$> xrows)).
Proof. intros Hd. unfold matmul. by rewrite decide_True. Qed.

Lemma mm_row_length (k : nat) (wrows : list (list R)) (xr : list R) :
  length (mm_row k wrows xr) = k.
Proof. unfold mm_row. by rewrite length_fmap, length_seq. Qed.

Lemma mm_rows_wf (k : nat) (wrows xrows : list (list R)) :
  Forall (λ r, length r = k) (mm_row k wrows <$> xrows).
Proof.
  apply Forall_fmap, Forall_forall. intros xr _. apply mm_row_length.
Qed.

Lemma axpy_zero (c : nat) (bk : list R) :
  (∀ x, sadd szero (smul sone x) = x) → length bk = c →
  zip_with (λ o x, sadd o (smul sone x)) (replicate c szero) bk = bk.
Proof.
  intros Hlaw. revert c. induction bk as [|x bk IH]; intros c Hc.
  - by destruct c.
  - destruct c as [|c]; [done|]. cbn. rewrite Hlaw. f_equal. apply IH.
    cbn in Hc. lia.
Qed.

Lemma accumulate_identity (c : nat) (rows : list (list R)) (k m : nat) :
  (∀ x, sadd szero (smul sone x) = x) →
  Forall (λ r, length r = c) rows → (k + m)%nat = length rows →
  accumulate ((λ i, (i, i, sone)) <$> seq k m) rows
    (take k rows ++ replicate m (replicate c szero))
  = Ret rows.
Proof.
  intros Hlaw Hwf. revert k. induction m as [|m IH]; intros k Hkm.
  - cbn. rewrite app_nil_r, take_ge by lia. done.
  - cbn [seq fmap list_fmap accumulate].
    destruct (lookup_lt_is_Some_2 rows k) as [bk Hbk]; [lia|].
    rewrite Hbk.
    rewrite lookup_app_r by (rewrite length_take; lia).
    rewrite length_take, Nat.min_l by lia. rewrite Nat.sub_diag. cbn [replicate lookup list_lookup].
    rewrite axpy_zero; [|done|].
    2:{ eapply Forall_lookup_1 in Hwf; [|exact Hbk]. done. }
    replace (<[k:=bk]> (take k rows ++ replicate c szero :: replicate m (replicate c szero)))
      with (take (S k) rows ++ replicate m (replicate c szero)).
    { apply IH. lia. }
    erewrite take_S_r by exact Hbk. rewrite <- app_assoc. cbn [app].
    symmetry.
    rewrite insert_app_r_alt by (rewrite length_take; lia).
    rewrite length_take, Nat.min_l by lia. by rewrite Nat.sub_diag.
Qed.

(** The stored identity times a matrix is that matrix. *)
Lemma sparse_identity_matmul (n c : nat) (rows : list (list R)) :
  (∀ x, sadd szero (smul sone x) = x) →
  Forall (λ r, length r = c) rows → length rows = n →
  sparse_tensor_dense_matmul (sparse_identity n) (Matrix c rows)
  = Ret (Matrix c rows).
Proof.
  intros Hlaw Hwf Hn. unfold sparse_tensor_dense_matmul, sparse_identity.
  cbn [dense_shape entries fst snd]. rewrite decide_True by done.
  pose proof (accumulate_identity c rows 0 n Hlaw Hwf) as Hacc.
  rewrite take_0 in Hacc. cbn [app] in Hacc. rewrite Hacc by lia. reflexivity.
Qed.

Lemma accumulate_ok (c n : nat) (es : list (nat * nat * R))
    (b out : list (list R)) :
  Forall (λ e, (e.1.1 < n)%nat ∧ (e.1.2 < length b)%nat) es →
  Forall (λ r, length r = c) b →
  length out = n → Forall (λ r, length r = c) out →
  ∃ out', accumulate es b out = Ret out'
          ∧ length out' = n ∧ Forall (λ r, length r = c) out'.
Proof.
  intros Hes Hb. revert out.
  induction Hes as [|[[m k] v] es [Hm Hk] _ IH]; intros out Hn Hout.
  - exists out. done.
  - cbn [accumulate]. cbn [fst snd] in Hm, Hk.
    destruct (lookup_lt_is_Some_2 b k Hk) as [bk Hbk]. rewrite Hbk.
    destruct (lookup_lt_is_Some_2 out m) as [om Hom]; [lia|]. rewrite Hom.
    apply IH.
    + by rewrite length_insert.
    + apply Forall_insert; [done|].
      rewrite length_zip_with.
      eapply Forall_lookup_1 in Hb; [|exact Hbk].
      eapply Forall_lookup_1 in Hout; [|exact Hom]. cbn in *. lia.
Qed.

(** A sparse matrix whose entries lie inside its shape multiplies any
    well-formed matrix with as many rows as it has columns. *)
Lemma sparse_matmul_ok (n m c : nat) (A : sparse R) (rows : list (list R)) :
  dense_shape A = (n, m) → sparse_wf A →
  length rows = m → Forall (λ r, length r = c) rows →
  ∃ rows', sparse_tensor_dense_matmul A (Matrix c rows) = Ret (Matrix c rows')
           ∧ length rows' = n ∧ Forall (λ r, length r = c) rows'.
Proof.
  intros Hshape Hwf Hm Hrows. unfold sparse_tensor_dense_matmul, sparse_wf in *.
  rewrite Hshape in *. cbn [fst snd] in *. rewrite decide_True by done.
  destruct (accumulate_ok c n (entries A) rows
              (replicate n (replicate c szero))) as (out & -> & Hlen & Hout).
  - by rewrite Hm.
  - done.
  - by rewrite length_replicate.
  - apply Forall_replicate. by rewrite length_replicate.
  - exists out. done.
Qed.

Lemma bvec_same (f : R → R → R) (u v : list R) :
  length u = length v → bvec f u v = Ret (zip_with f u v).
Proof. intros Hl. unfold bvec. by rewrite decide_True. Qed.

Lemma mapM_bvec_zip (f : R → R → R) (c : nat) (r1 r2 : list (list R)) :
  Forall (λ r, length r = c) r1 → Forall (λ r, length r = c) r2 →
  mapM (λ p, bvec f p.1 p.2) (zip r1 r2) = Ret (zip_with (zip_with f) r1 r2).
Proof.
  intros H1. revert r2. induction H1 as [|u r1 Hu _ IH]; intros r2 H2.
  - reflexivity.
  - destruct H2 as [|v r2 Hv H2]; [reflexivity|].
    cbn [zip zip_with mapM fst snd]. rewrite bvec_same by congruence.
    cbn. rewrite (IH r2 H2). reflexivity.
Qed.

(** On two matrices of one shape, broadcasting is the entry-wise
    operation. *)
Lemma bmat_same (f : R → R → R) (c : nat) (r1 r2 : list (list R)) :
  length r1 = length r2 →
  Forall (λ r, length r = c) r1 → Forall (λ r, length r = c) r2 →
  bmat f c r1 c r2 = Ret (Matrix c (zip_with (zip_with f) r1 r2)).
Proof.
  intros Hl H1 H2. unfold bmat, bdim. rewrite !decide_True by done.
  by rewrite (mapM_bvec_zip f c).
Qed.

Lemma mapM_bvec_row (f : R → R → R) (c : nat) (rows : list (list R))
    (v : list R) :
  Forall (λ r, length r = c) rows → length v = c →
  mapM (λ u, bvec f u v) rows = Ret ((λ u, zip_with f u v) <$> rows).
Proof.
  intros Hrows Hv. induction Hrows as [|u rows Hu _ IH]; [reflexivity|].
  cbn [mapM fmap list_fmap]. rewrite bvec_same by congruence. cbn.
  rewrite IH. reflexivity.
Qed.

(** A vector as long as the rows is added to every row. *)
Lemma bmat_row_vector (f : R → R → R) (c : nat) (rows : list (list R))
    (v : list R) :
  Forall (λ r, length r = c) rows → length v = c →
  bmat f c rows (length v) [v]
  = Ret (Matrix c ((λ u, zip_with f u v) <$> rows)).
Proof.
  intros Hrows Hv. unfold bmat, bdim. rewrite Hv, decide_True by done.
  destruct rows as [|u [|u' rows]].
  - reflexivity.
  - cbn [length]. rewrite decide_True by done. cbn [zip zip_with mapM fst snd].
    apply Forall_cons in Hrows as [Hu _]. rewrite bvec_same by congruence.
    reflexivity.
  - cbn [length]. rewrite decide_False by done.
    by rewrite (mapM_bvec_row f c).
Qed.

Lemma gather_list_ok {A} (l : list A) (indices : list Z) :
  Forall (λ i, 0 ≤ i < Z.of_nat (length l)) indices →
  ∃ k, gather_list l indices = Ret k
       ∧ length k = length indices
       ∧ ∀ p i, indices !! p = Some i → k !! p = l !! Z.to_nat i.
Proof.
  induction 1 as [|i indices Hi _ (k & Hk & Hlen & Hget)].
  - exists []. done.
  - destruct (lookup_lt_is_Some_2 l (Z.to_nat i)) as [a Ha]; [lia|].
    exists (a :: k). unfold gather_list in *. cbn [mapM].
    rewrite bool_decide_eq_true_2 by lia. rewrite Ha. cbn. rewrite Hk. cbn.
    split; [done|]. split; [by rewrite Hlen|].
    intros [|p] j; cbn; [by intros [= <-]|apply Hget].
Qed.

Lemma add_n_pair (a b : dtensor R) :
  shape a = shape b → add_n [a; b] = broadcast sadd a b.
Proof. intros Hs. cbn. unfold add_same. by rewrite decide_True. Qed.

(** C1. A [GCN] with the two supports [Identity, A], the weights
    [W0, W1], zero dropout, the identity activation, no bias and no batch
    normalization returns, on a dense input [X], the sum of the products
    [X·W0] and [A·(X·W1)]: the identity support contributes [X·W0] itself
    and the per-support terms are added.  Entries may be of any type in
    which [0 + 1·x = x]. *)
Theorem gcn_additivity (n d k : nat) (xrows w0 w1 : list (list R))
    (A : sparse R) (l : GCN.t (H:=ListTF P)) :
  (∀ x : R, sadd szero (smul sone x) = x) →
  length xrows = n → length w0 = d → length w1 = d →
  dense_shape A = (n, n) → sparse_wf A →
  GCN.support l = [sparse_identity n; A] →
  GCN.weights l = [Matrix k w0; Matrix k w1] →
  (GCN.dropout l == 0)%Q →
  GCN.act l = identity →
  GCN.bias l = false → GCN.batch_norm l = false →
  Layer.sparse_inputs (GCN.base l) = false →
  ∃ XW0 XW1 AXW1 Z : dtensor R,
    matmul (Matrix d xrows) (Matrix k w0) = Ret XW0
    ∧ matmul (Matrix d xrows) (Matrix k w1) = Ret XW1
    ∧ sparse_tensor_dense_matmul A XW1 = Ret AXW1
    ∧ broadcast sadd XW0 AXW1 = Ret Z
    ∧ shape Z = [n; k]
    ∧ GCN._call l (Matrix d xrows) = Ret Z.
Proof.
  intros Hlaw Hn Hw0 Hw1 HA HAwf Hsup Hws Hdrop Hact Hbias Hbn Hsp.
  destruct (sparse_matmul_ok n n k A (mm_row k w1 <$> xrows) HA HAwf)
    as (arows & HAX & Hlen & Hwf).
  { by rewrite length_fmap. }
  { apply mm_rows_wf. }
  eexists _, _, _, _.
  split; [by apply matmul_rows|]. split; [by apply matmul_rows|].
  split; [exact HAX|].
  assert (broadcast sadd (Matrix k (mm_row k w0 <$> xrows)) (Matrix k arows)
          = Ret (Matrix k (zip_with (zip_with sadd) (mm_row k w0 <$> xrows) arows)))
    as Hsum.
  { cbn [broadcast]. apply bmat_same; [|apply mm_rows_wf|done].
    rewrite length_fmap. lia. }
  split; [exact Hsum|]. split.
  { cbn [shape]. rewrite length_zip_with, length_fmap. f_equal. lia. }
  unfold GCN._call. rewrite Hbias, Hbn, Hact, Hsup.
  cbn [tf_nn_dropout ListTF]. rewrite nn_dropout_zero by done.
  cbn [mbind res_bind length].
  change (range (Z.of_nat 2)) with [0; 1].
  cbn [GCN.loop]. rewrite Hws, Hsup, Hsp.
  change (index [Matrix k w0; Matrix k w1] 0) with (Ret (Matrix k w0)).
  change (index [Matrix k w0; Matrix k w1] 1) with (Ret (Matrix k w1)).
  change (index [sparse_identity n; A] 0) with (Ret (sparse_identity n)).
  change (index [sparse_identity n; A] 1) with (Ret A).
  cbn [mbind res_bind dot ListTF tf_matmul tf_sparse_tensor_dense_matmul].
  rewrite !matmul_rows by done.
  cbn [mbind res_bind].
  rewrite sparse_identity_matmul;
    [|done|apply mm_rows_wf|by rewrite length_fmap].
  cbn [mbind res_bind]. rewrite HAX. cbn [mbind res_bind app].
  cbn [tf_add_n ListTF]. rewrite add_n_pair.
  2:{ cbn [shape]. rewrite length_fmap. congruence. }
  rewrite Hsum. reflexivity.
Qed.

(** *** The decoder *)

Lemma res_bind_ret {A} (m : res A) : (m ≫= λ x, Ret x) = m.
Proof. by destruct m. Qed.


Lemma abs_diff_sym (u v : list R) :
  (∀ a b : R, sabs (ssub a b) = sabs (ssub b a)) →
  sabs <$> zip_with ssub u v = sabs <$> zip_with ssub v u.
Proof.
  intros Hlaw. revert v. induction u as [|a u IH]; intros [|b v]; try done.
  cbn. by rewrite Hlaw, IH.
Qed.

Lemma gathered_wf (d : nat) (xrows sel : list (list R)) (indices : list Z) :
  Forall (λ r, length r = d) xrows →
  length sel = length indices →
  (∀ p i, indices !! p = Some i → sel !! p = xrows !! Z.to_nat i) →
  Forall (λ r, length r = d) sel.
Proof.
  intros Hwf Hlen Hget. apply Forall_lookup. intros p u Hu.
  destruct (lookup_lt_is_Some_2 indices p) as [i Hi].
  { rewrite <- Hlen. by eapply lookup_lt_Some. }
  rewrite (Hget p i Hi) in Hu. by eapply Forall_lookup_1 in Hwf.
Qed.

(** On a well-formed input and in-range index pairs the decoder's product
    is a matrix with one row per pair, and each row is one and the same
    function of the absolute difference of the pair's two input rows. *)
Lemma decoder_outputs_ok (d k : nat) (xrows wrows : list (list R))
    (l : MLPDecoder.t (H:=ListTF P)) :
  wf (Matrix d xrows) → length wrows = d →
  MLPDecoder.weights l = Matrix k wrows →
  (MLPDecoder.use_bias l = true →
   ∃ bv, MLPDecoder.bias l = Some (Vector bv) ∧ length bv = k) →
  (MLPDecoder.dropout l == 0)%Q →
  length (MLPDecoder.r_indices l) = length (MLPDecoder.c_indices l) →
  Forall (λ i, 0 ≤ i < Z.of_nat (length xrows)) (MLPDecoder.r_indices l) →
  Forall (λ i, 0 ≤ i < Z.of_nat (length xrows)) (MLPDecoder.c_indices l) →
  ∃ (rows : list (list R)) (row_of : list R → list R),
    MLPDecoder.outputs l (Matrix d xrows) = Ret (Matrix k rows)
    ∧ length rows = length (MLPDecoder.r_indices l)
    ∧ Forall (λ r, length r = k) rows
    ∧ ∀ p i j u v,
        MLPDecoder.r_indices l !! p = Some i →
        MLPDecoder.c_indices l !! p = Some j →
        xrows !! Z.to_nat i = Some u → xrows !! Z.to_nat j = Some v →
        rows !! p = Some (row_of (sabs <$> zip_with ssub u v)).
Proof.
  intros Hwf Hw Hweights Hbias Hdrop Hlen Hr Hc.
  destruct (gather_list_ok xrows _ Hr) as (rr & Hrr & Hrlen & Hrget).
  destruct (gather_list_ok xrows _ Hc) as (cr & Hcr & Hclen & Hcget).
  pose proof (gathered_wf d xrows rr _ Hwf Hrlen Hrget) as Hrwf.
  pose proof (gathered_wf d xrows cr _ Hwf Hclen Hcget) as Hcwf.
  set (diff := fmap (M:=list) sabs <$> zip_with (zip_with ssub) rr cr).
  assert (∀ p i j u v,
            MLPDecoder.r_indices l !! p = Some i →
            MLPDecoder.c_indices l !! p = Some j →
            xrows !! Z.to_nat i = Some u → xrows !! Z.to_nat j = Some v →
            diff !! p = Some (sabs <$> zip_with ssub u v)) as Hdiff.
  { intros p i j u v Hi Hj Hu Hv. subst diff.
    rewrite list_lookup_fmap, lookup_zip_with.
    rewrite (Hrget p i Hi), (Hcget p j Hj), Hu, Hv. reflexivity. }
  assert (length diff = length (MLPDecoder.r_indices l)) as Hdlen.
  { subst diff. rewrite length_fmap, length_zip_with. lia. }
  assert (MLPDecoder.outputs l (Matrix d xrows)
          = (let outputs := Matrix k (mm_row k wrows <$> diff) in
             if MLPDecoder.use_bias l then
               b ← var_lookup "bias" (MLPDecoder.bias l);
               broadcast sadd outputs b
             else Ret outputs)) as Hrun.
  { unfold MLPDecoder.outputs.
    cbn [ListTF tf_nn_dropout tf_gather tf_subtract tf_abs tf_matmul tf_add].
    rewrite nn_dropout_zero by done. cbn [mbind res_bind gather].
    rewrite Hrr, Hcr. cbn [fmap res_fmap mbind res_bind broadcast].
    rewrite bmat_same by (done || lia).
    cbn [mbind res_bind map_tensor]. rewrite Hweights.
    fold diff. rewrite matmul_rows by done. cbn [mbind res_bind].
    by rewrite res_bind_ret. }
  rewrite Hrun. cbn zeta.
  destruct (MLPDecoder.use_bias l) eqn:Hub.
  - destruct (Hbias eq_refl) as (bv & Hb & Hbv). rewrite Hb.
    cbn [var_lookup mbind res_bind broadcast].
    rewrite bmat_row_vector by (apply mm_rows_wf || done).
    exists ((λ u, zip_with sadd u bv) <$> (mm_row k wrows <$> diff)),
      (λ x, zip_with sadd (mm_row k wrows x) bv).
    split; [done|]. split; [by rewrite !length_fmap|]. split.
    + apply Forall_fmap, Forall_fmap, Forall_forall. intros x _. cbn.
      rewrite length_zip_with, mm_row_length. lia.
    + intros p i j u v Hi Hj Hu Hv.
      by rewrite !list_lookup_fmap, (Hdiff p i j u v).
  - exists (mm_row k wrows <$> diff), (mm_row k wrows).
    split; [done|]. split; [by rewrite length_fmap|].
    split; [apply mm_rows_wf|].
    intros p i j u v Hi Hj Hu Hv.
    by rewrite list_lookup_fmap, (Hdiff p i j u v).
Qed.

(** C8. With zero dropout, on a well-formed input and in-range index
    pairs, the decoder returns one score row per pair, and the rows of two
    pairs that are each other's swap, [(i, j)] and [(j, i)], are equal; the
    squeeze and the activation then act on these rows.  Entries may be of
    any type in which [|a - b| = |b - a|]. *)
Theorem decoder_pairing_symmetry (d k : nat) (xrows wrows : list (list R))
    (l : MLPDecoder.t (H:=ListTF P)) (p q : nat) (i j : Z) :
  (∀ a b : R, sabs (ssub a b) = sabs (ssub b a)) →
  wf (Matrix d xrows) → length wrows = d →
  MLPDecoder.weights l = Matrix k wrows →
  (MLPDecoder.use_bias l = true →
   ∃ bv, MLPDecoder.bias l = Some (Vector bv) ∧ length bv = k) →
  (MLPDecoder.dropout l == 0)%Q →
  length (MLPDecoder.r_indices l) = length (MLPDecoder.c_indices l) →
  Forall (λ i, 0 ≤ i < Z.of_nat (length xrows)) (MLPDecoder.r_indices l) →
  Forall (λ i, 0 ≤ i < Z.of_nat (length xrows)) (MLPDecoder.c_indices l) →
  MLPDecoder.r_indices l !! p = Some i → MLPDecoder.c_indices l !! p = Some j →
  MLPDecoder.r_indices l !! q = Some j → MLPDecoder.c_indices l !! q = Some i →
  ∃ (rows : list (list R)) (score : list R),
    MLPDecoder.outputs l (Matrix d xrows) = Ret (Matrix k rows)
    ∧ length rows = length (MLPDecoder.r_indices l)
    ∧ rows !! p = Some score ∧ rows !! q = Some score
    ∧ MLPDecoder._call l (Matrix d xrows)
      = MLPDecoder.act l (if Z.eqb (MLPDecoder.n_out l) 1
                          then squeeze (Matrix k rows) else Matrix k rows).
Proof.
  intros Hlaw Hwf Hw Hweights Hbias Hdrop Hlen Hr Hc Hrp Hcp Hrq Hcq.
  destruct (decoder_outputs_ok d k xrows wrows l)
    as (rows & row_of & Hout & Hrows & _ & Hget); try done.
  destruct (lookup_lt_is_Some_2 xrows (Z.to_nat i)) as [u Hu].
  { eapply Forall_lookup_1 in Hr; [|exact Hrp]. cbn in Hr. lia. }
  destruct (lookup_lt_is_Some_2 xrows (Z.to_nat j)) as [v Hv].
  { eapply Forall_lookup_1 in Hc; [|exact Hcp]. cbn in Hc. lia. }
  exists rows, (row_of (sabs <$> zip_with ssub u v)).
  split; [done|]. split; [done|].
  split; [by apply (Hget p i j)|]. split.
  - rewrite (Hget q j i v u) by done. by rewrite (abs_diff_sym v u).
  - unfold MLPDecoder._call. rewrite Hout. cbn [mbind res_bind tf_squeeze ListTF].
    by destruct (MLPDecoder.act l _).
Qed.

(** With one output per pair and the identity activation, the result of
    the decoder has the shape [[N]] for [N] pairs, except for a single
    pair, where no dimension is left. *)
Lemma decoder_squeeze_shape (d : nat) (xrows wrows : list (list R))
    (l : MLPDecoder.t (H:=ListTF P)) :
  wf (Matrix d xrows) → length wrows = d →
  MLPDecoder.weights l = Matrix 1 wrows → MLPDecoder.n_out l = 1 →
  (MLPDecoder.use_bias l = true →
   ∃ bv, MLPDecoder.bias l = Some (Vector bv) ∧ length bv = 1%nat) →
  (MLPDecoder.dropout l == 0)%Q → MLPDecoder.act l = identity →
  length (MLPDecoder.r_indices l) = length (MLPDecoder.c_indices l) →
  Forall (λ i, 0 ≤ i < Z.of_nat (length xrows)) (MLPDecoder.r_indices l) →
  Forall (λ i, 0 ≤ i < Z.of_nat (length xrows)) (MLPDecoder.c_indices l) →
  ∃ pre out : dtensor R,
    MLPDecoder.outputs l (Matrix d xrows) = Ret pre
    ∧ shape pre = [length (MLPDecoder.r_indices l); 1%nat]
    ∧ MLPDecoder._call l (Matrix d xrows) = Ret out
    ∧ shape out = if decide (length (MLPDecoder.r_indices l) = 1%nat)
                  then [] else [length (MLPDecoder.r_indices l)].
Proof.
  intros Hwf Hw Hweights Hn Hbias Hdrop Hact Hlen Hr Hc.
  destruct (decoder_outputs_ok d 1 xrows wrows l)
    as (rows & row_of & Hout & Hrows & Hrwf & _); try done.
  exists (Matrix 1 rows), (squeeze (Matrix 1 rows)).
  split; [done|]. split; [by rewrite <- Hrows|]. split.
  { unfold MLPDecoder._call. rewrite Hout, Hn, Hact. reflexivity. }
  rewrite <- Hrows. unfold squeeze. cbn [shape flatten].
  rewrite !filter_cons, filter_nil.
  destruct (decide (1%nat ≠ 1%nat)) as [Hne|_]; [done|].
  destruct (decide (length rows = 1%nat)) as [H1|H1].
  - rewrite decide_False by (by intros ?).
    destruct rows as [|[|x [|]] [|]]; try done.
    apply Forall_cons in Hrwf as [Hx _]. done.
  - rewrite decide_True by done. cbn [shape]. f_equal.
    clear -Hrwf. induction Hrwf as [|r rows Hr _ IH]; [done|].
    cbn. rewrite length_app, IH, Hr. done.
Qed.

End ListEngine.

Lemma gcn_additivity_witness :
  let A : sparse Z := Sparse [(0%nat, 1%nat, 1); (1%nat, 0%nat, 1)] (2%nat, 2%nat) in
  let l := @GCN.Build_t ZTF (named "gcn_1")
             [Matrix 2 [[1; 0]; [0; 1]]; Matrix 2 [[1; 1]; [0; 2]]] None
             0%Q false true false [sparse_identity 2; A] identity in
  GCN._call l (Matrix 2 [[1; 2]; [3; 4]]) = Ret (Matrix 2 [[4; 13]; [4; 9]]).
Proof.
  intros A l.
  assert (∀ x : Z, sadd szero (smul sone x) = x) as Hlaw.
  { intros x. change (0 + 1 * x = x). lia. }
  assert (sparse_wf A) as Hwf.
  { unfold sparse_wf. cbn. repeat constructor. }
  destruct (gcn_additivity toy_params 2 2 2 [[1; 2]; [3; 4]]
              [[1; 0]; [0; 1]] [[1; 1]; [0; 2]] A l Hlaw eq_refl eq_refl
              eq_refl eq_refl Hwf eq_refl eq_refl (Qeq_refl 0) eq_refl
              eq_refl eq_refl eq_refl)
    as (XW0 & XW1 & AXW1 & Z & H0 & H1 & H2 & H3 & _ & Hcall).
  refine (eq_trans Hcall _). clear Hcall.
  vm_compute in H0. injection H0 as <-.
  vm_compute in H1. injection H1 as <-.
  vm_compute in H2. injection H2 as <-.
  vm_compute in H3. injection H3 as <-. reflexivity.
Defined.

Lemma decoder_pairing_symmetry_witness :
  let l := @MLPDecoder.Build_t ZTF (named "mlpdecoder_1")
             (Matrix 1 [[1]; [1]]) None [0; 1] [1; 0] 0%Q identity 1 false in
  MLPDecoder.outputs l (Matrix 2 [[1; 2]; [4; 6]]) = Ret (Matrix 1 [[7]; [7]])
  ∧ MLPDecoder._call l (Matrix 2 [[1; 2]; [4; 6]]) = Ret (Vector [7; 7]).
Proof.
  intros l.
  assert (∀ a b : Z, sabs (ssub a b) = sabs (ssub b a)) as Hlaw.
  { intros a b. change (Z.abs (a - b) = Z.abs (b - a)). lia. }
  assert (wf (Matrix 2 [[1; 2]; [4; 6]])) as Hwf by repeat constructor.
  assert (Forall (λ i, 0 ≤ i < Z.of_nat 2) [0; 1]) as Hr
    by (repeat constructor; lia).
  assert (Forall (λ i, 0 ≤ i < Z.of_nat 2) [1; 0]) as Hc
    by (repeat constructor; lia).
  destruct (decoder_pairing_symmetry toy_params 2 1 [[1; 2]; [4; 6]]
              [[1]; [1]] l 0 1 0 1 Hlaw Hwf eq_refl eq_refl
              (λ Hb, False_rect _ (Bool.diff_false_true Hb)) (Qeq_refl 0)
              eq_refl Hr Hc eq_refl eq_refl eq_refl eq_refl)
    as (rows & score & Hout & _ & _ & _ & Hcall).
  split; [refine (eq_trans Hout _)|refine (eq_trans Hcall _)]; clear Hcall;
    vm_compute in Hout; injection Hout as <-; reflexivity.
Defined.

(** C3, at a single candidate pair.  A decoder built with [n_out = 1] for
    the one pair [(0, 1)] forms the 1×1 product [[7]] (rank 2), and
    [tf.squeeze] without an axis takes away both dimensions: the result is
    the scalar 7, of rank 0, not a vector of length 1. *)
Theorem decoder_squeeze_single_pair :
  ∃ l w',
    MLPDecoder.__init__ (H:=ZTF) 2 [0] [1] 2 0 identity 1 false [] empty_world
    = (Ret l, w')
    ∧ length (MLPDecoder.r_indices l) = 1%nat
    ∧ MLPDecoder.outputs l (Matrix 2 [[1; 2]; [4; 6]]) = Ret (Matrix 1 [[7]])
    ∧ rank (Matrix 1 [[7]]) = 2%nat
    ∧ MLPDecoder._call l (Matrix 2 [[1; 2]; [4; 6]]) = Ret (Scalar_t 7)
    ∧ rank (Scalar_t 7) = 0%nat.
Proof.
  destruct (MLPDecoder.__init__ (H:=ZTF) 2 [0] [1] 2 0 identity 1 false []
              empty_world) as [[l|e] w'] eqn:Hl;
    [|exfalso; revert Hl; vm_compute; discriminate].
  exists l, w'. split; [reflexivity|].
  revert Hl. vm_compute. intros [= <- _]. repeat split; reflexivity.
Qed.
